(** * MindMenders sentiment service: training pipeline and escalation rule

    A shallow embedding of [sentiment_service/train_model.py] and of the
    [/analyze] handler of [sentiment_service/app.py].

    Conventions of the embedding.
    - Python [float] is IEEE binary64, so it is [PrimFloat.float]; the only
      float operation the script and the handler perform themselves is the
      comparison [>] / [<].  The learning-rate multiplier, which the
      transformers library computes, is studied over exact rationals.
    - Python [str] is [string].  The normalised texts that the augmenter
      handles are ASCII (lower-case words joined by blanks); on the raw
      text of the data set, [str.lower] and the regular expression work
      with Unicode tables and are taken from the surroundings.
    - The process state that the script mutates (numpy's global random
      generator, the files it writes, the optimiser and scheduler it steps)
      is an explicit [world] threaded through a state-and-exception monad.
    - Calls into numerical libraries whose results no function of the script
      inspects (forward and backward passes, tokenisation) are not part of
      the state; the validation accuracy that [evaluate] returns is read from
      an oracle indexed by the epoch.
    - Writing to the file system ([os.makedirs], [np.save],
      [save_pretrained], [json.dump]) is taken to succeed; reading the data
      set, finding the pretrained network and splitting the data can fail,
      and do so by raising. *)

From Stdlib Require Import Floats QArith Qminmax Lia Ascii.
From stdpp Require Import base option list strings sorting gmap pretty.

Set Warnings "-inexact-float".
Local Open Scope nat_scope.

(** ** Python strings: [str.isspace], [str.split()], [sep.join] *)

Module PyStr.

(** [str.isspace] on the ASCII range: TAB, LF, VT, FF, CR, the four
    separators FS GS RS US, and the blank. *)
Definition isspace (c : ascii) : bool :=
  let n := Ascii.nat_of_ascii c in
  ((9 <=? n) && (n <=? 13)) || ((28 <=? n) && (n <=? 32)).

(** [text.split()] with no argument: runs of white space separate the
    words, and no empty word is produced.  [cur] is the word being read. *)
Fixpoint split_go (cur : string) (s : string) : list string :=
  match s with
  | EmptyString => if decide (cur = "") then [] else [cur]
  | String c s' =>
      if isspace c
      then (if decide (cur = "") then [] else [cur]) ++ split_go "" s'
      else split_go (cur +:+ String c "") s'
  end.

Definition split (text : string) : list string := split_go "" text.

(** [sep.join(words)] *)
Definition join (sep : string) (words : list string) : string :=
  String.concat sep words.

(** A word: non-empty and free of white space. *)
Fixpoint nospace (s : string) : bool :=
  match s with
  | EmptyString => true
  | String c s' => negb (isspace c) && nospace s'
  end.

Definition is_word (s : string) : Prop := s <> "" /\ nospace s = true.

(** [text.lower()] on the ASCII range. *)
Definition lower_char (c : ascii) : ascii :=
  let n := Ascii.nat_of_ascii c in
  if (65 <=? n) && (n <=? 90) then Ascii.ascii_of_nat (n + 32) else c.

Fixpoint lower (s : string) : string :=
  match s with
  | EmptyString => EmptyString
  | String c s' => String (lower_char c) (lower s')
  end.

(** The characters that [re.sub(r'[^a-z\s]', '', text)] keeps. *)
Definition is_az_or_space (c : ascii) : bool :=
  let n := Ascii.nat_of_ascii c in
  ((97 <=? n) && (n <=? 122)) || isspace c.

Fixpoint keep_chars (keep : ascii -> bool) (s : string) : string :=
  match s with
  | EmptyString => EmptyString
  | String c s' =>
      if keep c then String c (keep_chars keep s') else keep_chars keep s'
  end.

(** [sub in s] *)
Fixpoint contains (sub s : string) : bool :=
  String.prefix sub s ||
  match s with
  | EmptyString => false
  | String _ s' => contains sub s'
  end.

End PyStr.

(** ** Constants of [train_model.py] *)

Definition MODEL_NAME : string := "bert-base-uncased".
Definition MAX_LENGTH : nat := 128.
Definition BATCH_SIZE : nat := 16.
Definition NUM_EPOCHS : nat := 10.
Definition OUTPUT_DIR : string := "/opt/render/model".

(** [os.path.join(OUTPUT_DIR, name)] *)
Definition output_path (name : string) : string := OUTPUT_DIR +:+ "/" +:+ name.

(** ** The label encoder

    [train_sentiment_model] calls [LabelEncoder().fit_transform(labels)] of
    scikit-learn; the encoder itself is not part of the repository. *)

Module LabelEncoder.

(** Modelled from the spec: the second half of [np.unique], which keeps an
    element of the sorted array when it differs from its successor, so that
    the labels left are distinct. *)
Fixpoint collapse_runs (sorted : list string) : list string :=
  match sorted with
  | [] => []
  | x :: rest =>
      match rest with
      | [] => [x]
      | y :: _ =>
          if decide (x = y) then collapse_runs rest
          else x :: collapse_runs rest
      end
  end.

(** Modelled from the spec: [np.unique], behind [LabelEncoder.fit]; the
    distinct label strings in sorted (lexicographic) order. *)
Definition np_unique (labels : list string) : list string :=
  collapse_runs (merge_sort String.le labels).

(** the strict lexicographic order of strings *)
Definition lt (x y : string) : Prop := String.ltb x y = true.

(** Modelled from the spec: the id of a label is its position in
    [classes_], which is the number of classes strictly below it. *)
Definition encode (classes_ : list string) (label : string) : nat :=
  length (filter (fun c => String.ltb c label = true) classes_).

(** Modelled from the spec: [LabelEncoder.fit_transform], the classes and
    the id of every row's label. *)
Definition fit_transform (labels : list string)
  : list string * list nat :=
  let classes_ := np_unique labels in
  (classes_, map (encode classes_) labels).

End LabelEncoder.

(** ** The process state and the monad of the script *)

(** numpy's global generator: [np.random.randint(low, high)] draws an integer
    of [low, high), [np.random.random()] a float; both advance the
    generator. *)
Class RandomSource (rng : Type) := {
  randint : nat -> nat -> rng -> nat * rng;
  random : rng -> float * rng;
  randint_range : forall lo hi g,
    lo < hi -> lo <= fst (randint lo hi g) < hi
}.

(** What the script obtains from the Python runtime, NLTK, scikit-learn,
    transformers and the network:
    - [text.lower()] and [re.sub(r'[^a-z\s]', '', text)] on raw text, which
      follow the Unicode tables of the runtime;
    - the tokeniser and the lemmatiser;
    - whether [from_pretrained(name)] finds the tokenizer and the model;
    - the number of minibatches of the training loader that
      [train_test_split] and [DataLoader] produce for a data set, [None]
      when [train_test_split] raises [ValueError] (too few examples for a
      stratified split);
    - the validation accuracy [evaluate] measures after an epoch. *)
Class Libraries := {
  str_lower : string -> string;
  re_sub_non_letters : string -> string;
  word_tokenize : string -> list string;
  lemmatize : string -> string;
  from_pretrained : string -> bool;
  train_loader_len : list string -> list nat -> option nat;
  val_accuracy : nat -> float
}.

(** The exceptions the script can meet. *)
Inductive exn : Type :=
  | IndexError
  | AttributeError
  | ZeroDivisionError
  | ValueError (msg : string)
  | OSError (msg : string)
  | ReadError (path : string).

Inductive result (A : Type) : Type :=
  | Ok (a : A)
  | Raise (e : exn).
Arguments Ok {A} a.
Arguments Raise {A} e.

(** [model_config.json] *)
Record ModelConfig : Type := {
  model_name : string;
  num_labels : nat;
  max_length : nat;
  label_mapping : list (nat * string)
}.

#[global] Instance ModelConfig_eq_dec : EqDecision ModelConfig.
Proof. solve_decision. Defined.

(** A data frame read from a CSV file: the header, and one finite map per
    row from column name to value; a column absent from a row is a missing
    value (NaN).  The cells hold [str] values: a column that pandas reads as
    numbers is not represented. *)
Record DataFrame : Type := {
  columns : list string;
  rows : list (gmap string string)
}.

(** The effects of a run that outlive it or that the claims count.  The
    [epoch] carried by the two checkpoint events is the loop index at which
    [save_pretrained] is called; the path is always [OUTPUT_DIR/best_model]. *)
Inductive event : Type :=
  | MakeDirs (path : string)
  | SaveLabelClasses (path : string) (classes : list string)
  | OptimizerStep
  | SchedulerStep
  | SaveModel (path : string) (epoch : nat)
  | SaveTokenizer (path : string) (epoch : nat)
  | WriteConfig (path : string) (cfg : ModelConfig).

#[global] Instance event_eq_dec : EqDecision event.
Proof. solve_decision. Defined.

(** The events that leave a file behind. *)
Definition is_artifact (ev : event) : bool :=
  match ev with
  | SaveLabelClasses _ _ | SaveModel _ _ | SaveTokenizer _ _
  | WriteConfig _ _ => true
  | MakeDirs _ | OptimizerStep | SchedulerStep => false
  end.

(** The events of training. *)
Definition is_training (ev : event) : bool :=
  match ev with
  | OptimizerStep | SchedulerStep => true
  | _ => false
  end.

Section Script.

Context {rng : Type} {source : RandomSource rng} {libs : Libraries}.

(** The state of the process and of its surroundings: numpy's generator,
    the CSV files that can be read ([None]: [pd.read_csv] raises), and
    the effects performed so far. *)
Record world : Type := {
  gen : rng;
  csv : string -> option DataFrame;
  trace : list event
}.

Definition M (A : Type) : Type := world -> result A * world.

Definition ret {A} (a : A) : M A := fun w => (Ok a, w).

Definition bind {A B} (m : M A) (k : A -> M B) : M B :=
  fun w =>
    match m w with
    | (Ok a, w') => k a w'
    | (Raise e, w') => (Raise e, w')
    end.

Definition raise {A} (e : exn) : M A := fun w => (Raise e, w).

#[global] Instance M_ret : MRet M := @ret.
#[global] Instance M_bind : MBind M := fun A B k m => bind m k.

Definition emit (ev : event) : M unit :=
  fun w =>
    (Ok tt, {| gen := gen w; csv := csv w; trace := trace w ++ [ev] |}).

Definition np_random_randint (lo hi : nat) : M nat :=
  fun w =>
    let '(n, g) := randint lo hi (gen w) in
    (Ok n, {| gen := g; csv := csv w; trace := trace w |}).

Definition np_random_random : M float :=
  fun w =>
    let '(r, g) := random (gen w) in
    (Ok r, {| gen := g; csv := csv w; trace := trace w |}).

Definition pd_read_csv (file_path : string) : M DataFrame :=
  fun w =>
    match csv w file_path with
    | Some df => (Ok df, w)
    | None => (Raise (ReadError file_path), w)
    end.

(** [m] run from [w] returns normally, with a value and a final state that
    satisfy [Q]. *)
Definition returns {A} (m : M A) (w : world) (Q : A -> world -> Prop)
  : Prop :=
  exists a w', m w = (Ok a, w') /\ Q a w'.

(** [for x in xs: acc = body(x, acc)] *)
Fixpoint for_each {A S} (xs : list A) (body : A -> S -> M S) (acc : S)
  : M S :=
  match xs with
  | [] => ret acc
  | x :: xs' => acc' ← body x acc; for_each xs' body acc'
  end.

(** ** [preprocess_text]

    A cell that is not a [str] (a missing value) is normalised to the
    empty string. *)
Definition preprocess_text (text : option string) : string :=
  match text with
  | None => ""
  | Some text =>
      let text := str_lower text in
      let text := re_sub_non_letters text in
      let tokens := word_tokenize text in
      let lemmatized_tokens := map lemmatize tokens in
      PyStr.join " " lemmatized_tokens
  end.

(** ** [augment_text] *)

(** [words[:remove_idx] + words[remove_idx+1:]] *)
Definition remove_word (remove_idx : nat) (words : list string)
  : list string :=
  take remove_idx words ++ drop (S remove_idx) words.

(** [ws[i], ws[i+1] = ws[i+1], ws[i]]: both reads happen before the two
    writes, and a read out of range raises [IndexError]. *)
Definition swap_adjacent (i : nat) (ws : list string) : M (list string) :=
  match ws !! i, ws !! (S i) with
  | Some a, Some b => ret (<[S i := a]> (<[i := b]> ws))
  | _, _ => raise IndexError
  end.

(** The body of the swap loop: one draw per position, swap on a draw below
    0.3. *)
Definition swap_body (i : nat) (words_copy : list string)
  : M (list string) :=
  r ← np_random_random;
  if (r <? 0.3)%float then swap_adjacent i words_copy
  else ret words_copy.

Definition augment_text (text : string) : M (list string) :=
  let augmented := [] in
  let words := PyStr.split text in
  if length words <=? 3 then ret [text]
  else
    let augmented := augmented ++ [text] in
    augmented ←
      (if 4 <? length words then
         remove_idx ← np_random_randint 0 (length words);
         let aug_text := PyStr.join " " (remove_word remove_idx words) in
         ret (augmented ++ [aug_text])
       else ret augmented);
    let words_copy := words in
    words_copy ←
      for_each (seq 0 (length words_copy - 1)) swap_body words_copy;
    let aug_text := PyStr.join " " words_copy in
    ret (augmented ++ [aug_text]).

(** ** [load_and_preprocess_data] *)

Definition required_columns : list string := ["text"; "emotion"].

(** a row with a value in every column of [subset] *)
Definition complete (subset : list string) (row : gmap string string)
  : bool :=
  forallb (fun col => bool_decide (is_Some (row !! col))) subset.

(** [df.dropna(subset=...)] *)
Definition dropna (subset : list string) (df : DataFrame) : DataFrame :=
  {| columns := columns df;
     rows := List.filter (complete subset) (rows df) |}.

(** [df['text'] = df['text'].apply(f)] *)
Definition apply_text (f : option string -> string) (df : DataFrame)
  : DataFrame :=
  {| columns := columns df;
     rows := map (fun row => <["text" := f (row !! "text")]> row)
               (rows df) |}.

(** The dtype that [pd.read_csv] gives the [text] column, which [dropna]
    and [apply] keep: [object] when a cell holds a string or the frame has
    no row, [float64] when the frame has rows and every text is missing. *)
Definition text_dtype_is_object (df : DataFrame) : bool :=
  match rows df with
  | [] => true
  | _ :: _ =>
      existsb (fun row => bool_decide (is_Some (row !! "text"))) (rows df)
  end.

(** [df[df['text'].str.len() > 0]] on a column of strings; on a [float64]
    column the [.str] accessor raises, which [load_and_preprocess_data]
    decides before it filters. *)
Definition nonempty_text (row : gmap string string) : bool :=
  match row !! "text" with
  | Some text => 0 <? String.length text
  | None => false
  end.

Definition drop_empty_text (df : DataFrame) : DataFrame :=
  {| columns := columns df;
     rows := List.filter nonempty_text (rows df) |}.

(** The rows that reach the augmentation loop: missing values dropped,
    then the text normalised, then empty texts dropped. *)
Definition prepared_rows (df : DataFrame) : list (gmap string string) :=
  rows (drop_empty_text
          (apply_text preprocess_text (dropna ["text"; "emotion"] df))).

(** The body of the augmentation loop over [zip(df['text'],
    df['emotion'])]; the accumulator is the pair [(augmented_texts,
    augmented_emotions)].  A missing text has no [split]. *)
Definition augment_row (row : gmap string string)
    (acc : list string * list string) : M (list string * list string) :=
  match row !! "text", row !! "emotion" with
  | Some text, Some emotion =>
      aug_texts ← augment_text text;
      ret (acc.1 ++ aug_texts,
           acc.2 ++ replicate (length aug_texts) emotion)
  | _, _ => raise AttributeError
  end.

Definition load_and_preprocess_data (file_path : string)
  : M (list string * list string) :=
  df ← pd_read_csv file_path;
  if negb (forallb (fun col => bool_decide (col ∈ columns df))
             required_columns)
  then raise (ValueError "Dataset must contain columns: text, emotion")
  else
    let as_read := df in
    let df := dropna ["text"; "emotion"] df in
    let df := apply_text preprocess_text df in
    (* [df['text'].str]: the accessor exists on an [object] column only *)
    if negb (text_dtype_is_object as_read) then raise AttributeError
    else
      let df := drop_empty_text df in
      for_each (rows df) augment_row ([], []).

(** ** [train_epoch] and the training loop *)

(** One minibatch: the forward and backward passes and the clipping leave
    no event; then [optimizer.step()] and [scheduler.step()]. *)
Definition train_batch : M unit :=
  emit OptimizerStep;; emit SchedulerStep.

(** [train_epoch]: the loop over the loader, then the two averages, which
    divide by the number of batches and of predictions. *)
Definition train_epoch (data_loader_len : nat) : M unit :=
  for_each (seq 0 data_loader_len) (fun _ _ => train_batch) tt;;
  if data_loader_len =? 0 then raise ZeroDivisionError else ret tt.

(** [if val_acc > best_accuracy: best_accuracy = val_acc; save ...]; the
    value returned is the new [best_accuracy]. *)
Definition save_if_best (epoch : nat) (val_acc best_accuracy : float)
  : M float :=
  if (best_accuracy <? val_acc)%float then
    emit (SaveModel (output_path "best_model") epoch);;
    emit (SaveTokenizer (output_path "best_model") epoch);;
    ret val_acc
  else ret best_accuracy.

(** The body of [for epoch in range(NUM_EPOCHS)]; the accumulator is
    [best_accuracy]. *)
Definition epoch_body (data_loader_len : nat) (epoch : nat)
    (best_accuracy : float) : M float :=
  train_epoch data_loader_len;;
  let val_acc := val_accuracy epoch in
  save_if_best epoch val_acc best_accuracy.

Definition training_loop (data_loader_len : nat) (epochs : list nat)
  : M float :=
  let best_accuracy := 0%float in
  for_each epochs (epoch_body data_loader_len) best_accuracy.

(** [warmup_steps] and [total_steps] *)
Definition warmup_steps (data_loader_len : nat) : nat :=
  data_loader_len * 2.
Definition total_steps (data_loader_len : nat) : nat :=
  data_loader_len * NUM_EPOCHS.

(** ** [train_sentiment_model]

    The [try ... except Exception: print; raise] re-raises what it
    catches, so it is the identity on outcomes.  Loading the tokenizer and
    the pretrained network raises when they cannot be found, and
    [train_test_split] raises on a data set it cannot stratify; freezing,
    building the optimiser and the scheduler allocate objects and leave no
    event; they are [Bert] and [Scheduler] below. *)
Definition train_sentiment_model (dataset_path : string) : M unit :=
  emit (MakeDirs OUTPUT_DIR);;
  '(texts, labels) ← load_and_preprocess_data dataset_path;
  let '(classes_, encoded_labels) := LabelEncoder.fit_transform labels in
  let num_labels := length classes_ in
  emit (SaveLabelClasses (output_path "label_encoder_classes.npy")
          classes_);;
  (if from_pretrained MODEL_NAME then ret tt
   else raise (OSError MODEL_NAME));;
  data_loader_len ←
    match train_loader_len texts encoded_labels with
    | Some n => ret n
    | None => raise (ValueError "train_test_split")
    end;
  best_accuracy ← training_loop data_loader_len (seq 0 NUM_EPOCHS);
  let model_config :=
    {| model_name := MODEL_NAME;
       num_labels := num_labels;
       max_length := MAX_LENGTH;
       label_mapping := imap (fun i label => (i, label)) classes_ |} in
  emit (WriteConfig (output_path "model_config.json") model_config).

(** ** The [__main__] block: the exit status and the final state

    The statements the module runs before it are in [run_script] below. *)
Definition main (argv : list string) (w : world) : nat * world :=
  if negb (length argv =? 2) then (1, w)
  else
    match argv !! 1 with
    | None => (1, w)
    | Some dataset_file_path =>
        match train_sentiment_model dataset_file_path w with
        | (Ok _, w') => (0, w')
        | (Raise _, w') => (1, w')
        end
    end.

End Script.

(** The epochs at which the model was saved, read off a trace. *)
Definition saved_models (tr : list event) : list nat :=
  omap (fun ev => match ev with SaveModel _ e => Some e | _ => None end) tr.

Definition saved_tokenizers (tr : list event) : list nat :=
  omap (fun ev => match ev with SaveTokenizer _ e => Some e | _ => None end)
    tr.

Definition count_event (ev : event) (tr : list event) : nat :=
  length (List.filter (fun e => bool_decide (e = ev)) tr).

(** ** The network, the fine-tuning policy and the optimiser groups *)

Module Bert.

(** A parameter tensor: its name inside its module and its
    [requires_grad] flag. *)
Record Param : Type := {
  name : string;
  requires_grad : bool
}.

#[global] Instance Param_eq_dec : EqDecision Param.
Proof. solve_decision. Defined.

(** [BertForSequenceClassification]: [model.bert.embeddings],
    [model.bert.encoder.layer], [model.bert.pooler], [model.classifier]. *)
Record Model : Type := {
  embeddings : list Param;
  encoder_layer : list (list Param);
  pooler : list Param;
  classifier : list Param
}.

(** tensors as [from_pretrained] creates them: trainable *)
Definition fresh (names : list string) : list Param :=
  map (fun n => {| name := n; requires_grad := true |}) names.

(** Modelled from the spec: the tensors of the embedding sub-module, under
    the names the transformers library gives them; the library is not part
    of the repository. *)
Definition embeddings_names : list string :=
  ["word_embeddings.weight"; "position_embeddings.weight";
   "token_type_embeddings.weight"; "LayerNorm.weight"; "LayerNorm.bias"].

(** Modelled from the spec: the tensors of one encoder block, under the
    names the transformers library gives them. *)
Definition layer_names : list string :=
  ["attention.self.query.weight"; "attention.self.query.bias";
   "attention.self.key.weight"; "attention.self.key.bias";
   "attention.self.value.weight"; "attention.self.value.bias";
   "attention.output.dense.weight"; "attention.output.dense.bias";
   "attention.output.LayerNorm.weight"; "attention.output.LayerNorm.bias";
   "intermediate.dense.weight"; "intermediate.dense.bias";
   "output.dense.weight"; "output.dense.bias";
   "output.LayerNorm.weight"; "output.LayerNorm.bias"].

(** the 12 sequential blocks of [bert-base-uncased] *)
Definition num_hidden_layers : nat := 12.

(** Modelled from the spec: the network that
    [BertForSequenceClassification.from_pretrained(MODEL_NAME)] returns, an
    embedding sub-module, 12 sequential blocks, the pooler and the
    classification head, every tensor trainable when loaded. *)
Definition from_pretrained : Model :=
  {| embeddings := fresh embeddings_names;
     encoder_layer := replicate num_hidden_layers (fresh layer_names);
     pooler := fresh ["dense.weight"; "dense.bias"];
     classifier := fresh ["weight"; "bias"] |}.

(** [for param in module.parameters(): param.requires_grad = False] *)
Definition freeze (ps : list Param) : list Param :=
  map (fun p => {| name := name p; requires_grad := false |}) ps.

(** Step 4 of [train_sentiment_model]: the embeddings, and every block of
    index below 10. *)
Definition apply_freezing (model : Model) : Model :=
  {| embeddings := freeze (embeddings model);
     encoder_layer :=
       imap (fun i layer => if i <? 10 then freeze layer else layer)
         (encoder_layer model);
     pooler := pooler model;
     classifier := classifier model |}.

Definition prefixed (prefix : string) (ps : list Param)
  : list Param :=
  map (fun p => {| name := prefix +:+ name p;
                   requires_grad := requires_grad p |}) ps.

(** The name of block [i] in [named_parameters]. *)
Definition layer_prefix (i : nat) : string :=
  "bert.encoder.layer." +:+ pretty i +:+ ".".

(** [model.named_parameters()]: every tensor under its qualified name. *)
Definition named_parameters (model : Model) : list Param :=
  prefixed "bert.embeddings." (embeddings model)
  ++ concat (imap (fun i layer => prefixed (layer_prefix i) layer)
               (encoder_layer model))
  ++ prefixed "bert.pooler." (pooler model)
  ++ prefixed "classifier." (classifier model).

Record ParamGroup : Type := {
  params : list Param;
  lr : float;
  weight_decay : float
}.

(** [[p for n, p in model.named_parameters() if key in n]] *)
Definition params_named (key : string) (model : Model) : list Param :=
  List.filter (fun p => PyStr.contains key (name p))
    (named_parameters model).

Definition optimizer_grouped_parameters (model : Model)
  : list ParamGroup :=
  [ {| params := params_named "classifier" model;
       lr := 2e-4; weight_decay := 0.01 |};
    {| params := params_named "layer.11" model;
       lr := 1e-4; weight_decay := 0.01 |};
    {| params := params_named "layer.10" model;
       lr := 5e-5; weight_decay := 0.01 |} ].

(** The network as the training loop sees it. *)
Definition fine_tuned : Model := apply_freezing from_pretrained.

Definition frozen (p : Param) : Prop := requires_grad p = false.
Definition trainable (p : Param) : Prop := requires_grad p = true.


(** [AdamW(groups).step()] walks the groups and updates the tensors of a
    group that carry a gradient, that is, those with [requires_grad]; a
    tensor in no group is never visited. *)
Definition updated_by_optimizer (groups : list ParamGroup)
  : list Param :=
  List.filter requires_grad (concat (map params groups)).

End Bert.

(** ** The learning-rate schedule *)

Module Scheduler.

Local Open Scope Q_scope.

(** Modelled from the spec: the body of the [linear] schedule that
    [get_scheduler] returns belongs to the transformers library and is not
    in the repository.  The multiplier rises linearly from 0 at step 0 to
    1 at [num_warmup_steps], then decays linearly to 0 at
    [num_training_steps]; it is the library's
    [step / max(1, warmup)] before the warm-up ends and
    [max(0, (total - step) / max(1, total - warmup))] after, over exact
    rationals. *)
Definition lr_lambda (num_warmup_steps num_training_steps : nat)
    (current_step : nat) : Q :=
  if (current_step <? num_warmup_steps)%nat then
    inject_Z (Z.of_nat current_step)
    / inject_Z (Z.max 1 (Z.of_nat num_warmup_steps))
  else
    Qmax 0
      (inject_Z (Z.of_nat num_training_steps - Z.of_nat current_step)
       / inject_Z (Z.max 1 (Z.of_nat num_training_steps
                            - Z.of_nat num_warmup_steps))).

End Scheduler.

(** ** The [/analyze] handler of [app.py] *)

Module App.

(** The JSON answers of the handler with their HTTP status. *)
Inductive response : Type :=
  | Analysis (emotion : string) (confidence : float)
      (needs_immediate_help : bool)
  | Error (status : nat) (message : string).

(** The globals of the service and its environment.  [model] is [None]
    until the model is loaded; a loaded model maps a text to the pair
    [torch.max] extracts from the softmax output, the confidence and the
    index of the predicted class.  [float_of_string] is Python's
    [float(str)], [None] when it raises. *)
Record Service : Type := {
  model : option (string -> float * nat);
  label_encoder_classes : list string;
  getenv : string -> option string;
  float_of_string : string -> option float
}.

(** [float(os.getenv('SUICIDAL_CONFIDENCE_THRESHOLD', 0.75))] *)
Definition SUICIDAL_CONFIDENCE_THRESHOLD (srv : Service) : option float :=
  match getenv srv "SUICIDAL_CONFIDENCE_THRESHOLD" with
  | None => Some 0.75%float
  | Some s => float_of_string srv s
  end.

Definition internal_error : response :=
  Error 500 "Internal server error analyzing sentiment.".

(** [analyze_sentiment]; [text] is [data.get('text', '')], so a body
    without the key and a body with an empty text are both [""].  Every
    exception inside the [try] becomes the generic 500 answer. *)
Definition analyze_sentiment (srv : Service) (text : string) : response :=
  match model srv with
  | None => Error 500 "Model not loaded, please check server logs."
  | Some classify =>
      if decide (text = "") then Error 400 "No text provided"
      else
        let english_text := text in
        let '(confidence, predicted_idx) := classify english_text in
        match label_encoder_classes srv !! predicted_idx with
        | None => internal_error
        | Some predicted_emotion =>
            match SUICIDAL_CONFIDENCE_THRESHOLD srv with
            | None => internal_error
            | Some threshold =>
                let needs_immediate_help :=
                  bool_decide (predicted_emotion = "suicidal")
                  && (threshold <? confidence)%float in
                Analysis predicted_emotion confidence needs_immediate_help
            end
        end
  end.

End App.

(** ** The NLTK data packages

    Both files start by fetching NLTK data.  The data directory is the set
    of resource paths that [nltk.data.find] finds; [requested] records the
    calls of [nltk.download] in order. *)

Module NltkData.

Record state : Type := {
  resources : gset string;
  requested : list string
}.

(** [nltk.data.find(path)]; [false] stands for [LookupError]. *)
Definition find (path : string) (st : state) : bool :=
  bool_decide (path ∈ resources st).

End NltkData.

(** [download_nltk_data] of [train_model.py]: look each resource up and
    download the package only when the lookup fails. *)
Module NltkBootstrap.
Import NltkData.

(** What [nltk.download(pkg_id, quiet=True)] does to the data directory; a
    download that fails returns without installing anything. *)
Class Downloader := {
  install : string -> gset string -> gset string
}.

Definition download `{Downloader} (pkg_id : string) (st : state) : state :=
  {| resources := install pkg_id (resources st);
     requested := requested st ++ [pkg_id] |}.

(** the dict [required_packages], in its order *)
Definition required_packages : list (string * string) :=
  [("punkt", "tokenizers/punkt"); ("wordnet", "corpora/wordnet");
   ("omw-1.4", "corpora/omw-1.4"); ("punkt_tab", "tokenizers/punkt_tab")].

(** the body of the loop over [required_packages.items()] *)
Definition ensure `{Downloader} (st : state) (entry : string * string)
  : state :=
  let '(pkg_id, path) := entry in
  if find path st then st else download pkg_id st.

Definition download_nltk_data `{Downloader} (st : state) : state :=
  foldl ensure st required_packages.

End NltkBootstrap.

(** [download_nltk_data] of [download_nltk_data.py]: download every package,
    and carry on when a download raises. *)
Module NltkDownloader.
Import NltkData.

(** [nltk.download(package)]: the new data directory, or [None] when it
    raises. *)
Class Fetcher := {
  fetch : string -> gset string -> option (gset string)
}.

Definition required_packages : list string :=
  ["punkt"; "wordnet"; "averaged_perceptron_tagger"; "omw-1.4"].

(** the body of the loop: [try: nltk.download(package) except Exception] *)
Definition attempt `{Fetcher} (st : state) (package : string) : state :=
  match fetch package (resources st) with
  | Some data => {| resources := data; requested := requested st ++ [package] |}
  | None =>
      {| resources := resources st; requested := requested st ++ [package] |}
  end.

Definition download_nltk_data `{Fetcher} (st : state) : state :=
  foldl attempt st required_packages.

End NltkDownloader.

(** ** The script as a whole

    Run as a program, [train_model.py] first executes its module-level
    statements, of which [download_nltk_data()] is the one with an effect,
    and then the [__main__] block. *)

Record process {rng : Type} : Type := {
  nltk_data : NltkData.state;
  state : @world rng
}.
Arguments process : clear implicits.

Definition run_script {rng : Type} {source : RandomSource rng}
    {libs : Libraries} {downloader : NltkBootstrap.Downloader}
    (argv : list string) (p : process rng) : nat * process rng :=
  let nltk_data' := NltkBootstrap.download_nltk_data (nltk_data p) in
  let '(status, w') := main argv (state p) in
  (status, {| nltk_data := nltk_data'; state := w' |}).

(** ** Concrete surroundings, used to run the script on examples *)

Module Replay.

(** A generator that replays recorded draws. *)
Record tape : Type := {
  ints : list nat;
  floats : list float
}.

Definition tape_randint (lo hi : nat) (t : tape) : nat * tape :=
  match ints t with
  | [] => (lo, t)
  | n :: ns => (lo + n mod (hi - lo), {| ints := ns; floats := floats t |})
  end.

Definition tape_random (t : tape) : float * tape :=
  match floats t with
  | [] => (0.5%float, t)
  | r :: rs => (r, {| ints := ints t; floats := rs |})
  end.

#[global] Program Instance tape_source : RandomSource tape := {|
  randint := tape_randint;
  random := tape_random
|}.
Next Obligation.
  intros lo hi g Hlt. unfold tape_randint.
  destruct (ints g) as [|n ns]; simpl; [lia|].
  pose proof (Nat.mod_upper_bound n (hi - lo)). lia.
Qed.

(** Libraries for ASCII data: [lower] and the regular expression as they
    are on ASCII text, a tokeniser that splits on white space, a lemmatiser
    that changes nothing, a pretrained network that is found, a split that
    succeeds with a given number of training batches, and given validation
    accuracies per epoch. *)
Definition scripted (batches : nat) (accuracies : list float) : Libraries :=
  {| str_lower := PyStr.lower;
     re_sub_non_letters := PyStr.keep_chars PyStr.is_az_or_space;
     word_tokenize := PyStr.split;
     lemmatize := fun word => word;
     from_pretrained := fun _ => true;
     train_loader_len := fun _ _ => Some batches;
     val_accuracy := fun epoch => nth epoch accuracies 0%float |}.

Definition empty_disk : string -> option DataFrame := fun _ => None.

Definition start (t : tape) (disk : string -> option DataFrame)
  : @world tape :=
  {| gen := t; csv := disk; trace := [] |}.

End Replay.

(** A generator with one recorded index and three recorded floats, and a
    world that starts from it with no file on disk. *)
Definition draws_1 : Replay.tape :=
  {| Replay.ints := [2]; Replay.floats := [0.1; 0.5; 0.2]%float |}.

Definition world_1 : @world Replay.tape :=
  Replay.start draws_1 Replay.empty_disk.

(** One training batch per epoch and the validation accuracies
    0.60, 0.55, 0.60, 0.72 of four epochs. *)
Definition four_epochs : Libraries :=
  Replay.scripted 1 [0.60; 0.55; 0.60; 0.72]%float.

(** A data set without the [emotion] column, on a disk that holds it as
    [data.csv]. *)
Definition no_emotion_column : DataFrame :=
  {| columns := ["text"; "label"];
     rows := [ {["text" := "I am good"; "label" := "happy"]} ] |}.

Definition disk_1 (path : string) : option DataFrame :=
  if decide (path = "data.csv") then Some no_emotion_column else None.

Definition world_2 : @world Replay.tape := Replay.start draws_1 disk_1.


(** ** Further definitions used to state properties of the code *)

(** The text that [preprocess_text] hands to the tokeniser: lower-cased,
    then stripped of every character that is neither a letter nor white
    space. *)
Definition cleaned (text : string) : string :=
  PyStr.keep_chars PyStr.is_az_or_space (PyStr.lower text).

(** every character of [s] satisfies [p] *)
Fixpoint all_chars (p : ascii -> bool) (s : string) : bool :=
  match s with
  | EmptyString => true
  | String c s' => p c && all_chars p s'
  end.

(** a text of ASCII characters only *)
Definition is_ascii (s : string) : bool :=
  all_chars (fun c => Ascii.nat_of_ascii c <? 128) s.

(** The next [k] values of [np.random.random()] from the generator state
    [g]. *)
Fixpoint draws {rng : Type} {source : RandomSource rng} (k : nat) (g : rng)
  : list float :=
  match k with
  | 0 => []
  | S k' => (random g).1 :: draws k' (random g).2
  end.

(** The draws that the swap loop of [augment_text text] makes when the
    function is entered with the generator in state [g]: one for each
    position but the last, after the draw of [remove_idx] when the text has
    more than four words. *)
Definition swap_draws {rng : Type} {source : RandomSource rng}
    (text : string) (g : rng) : list float :=
  let words := PyStr.split text in
  draws (length words - 1)
    (if 4 <? length words then (randint 0 (length words) g).2 else g).

(** Worlds whose generator replays three draws of 0.5, and three of 0.1. *)
Definition world_high : @world Replay.tape :=
  Replay.start {| Replay.ints := []; Replay.floats := [0.5; 0.5; 0.5]%float |}
    Replay.empty_disk.

Definition world_low : @world Replay.tape :=
  Replay.start {| Replay.ints := []; Replay.floats := [0.1; 0.1; 0.1]%float |}
    Replay.empty_disk.

(** The events of the training loop: steps and checkpoints. *)
Definition is_loop_event (ev : event) : bool :=
  match ev with
  | OptimizerStep | SchedulerStep | SaveModel _ _ | SaveTokenizer _ _ => true
  | MakeDirs _ | SaveLabelClasses _ _ | WriteConfig _ _ => false
  end.

(** The accuracy of the last of the epochs [saved], or [best] when there is
    none. *)
Definition last_accuracy {libs : Libraries} (best : float)
    (saved : list nat) : float :=
  default best (val_accuracy <$> last saved).

(** Each epoch of [saved] has a validation accuracy strictly above that of
    the epoch before it, the first one strictly above [best]. *)
Fixpoint improving {libs : Libraries} (best : float) (saved : list nat)
  : Prop :=
  match saved with
  | [] => True
  | epoch :: later =>
      (best <? val_accuracy epoch)%float = true
      /\ improving (val_accuracy epoch) later
  end.

(** The data set of two short rows, on a disk that holds it as
    [emotions.csv]. *)
Definition two_rows : DataFrame :=
  {| columns := ["text"; "emotion"];
     rows := [ {["text" := "I am good"; "emotion" := "happy"]};
               {["text" := "I feel sad"; "emotion" := "sad"]} ] |}.

Definition disk_2 (path : string) : option DataFrame :=
  if decide (path = "emotions.csv") then Some two_rows else None.

Definition world_3 : @world Replay.tape := Replay.start draws_1 disk_2.


(** A data set of ten short rows, five of each of two emotions, on a disk
    that holds it as [ten.csv]: eight rows go to training, one batch. *)
Definition ten_rows : DataFrame :=
  {| columns := ["text"; "emotion"];
     rows :=
       concat (replicate 5
                 [ {["text" := "I am good"; "emotion" := "happy"]};
                   {["text" := "I feel sad"; "emotion" := "sad"]} ]) |}.

Definition disk_3 (path : string) : option DataFrame :=
  if decide (path = "ten.csv") then Some ten_rows else None.

Definition world_4 : @world Replay.tape := Replay.start draws_1 disk_3.

(** A data set whose rows all lack a text, on a disk that holds it as
    [blank.csv]. *)
Definition no_texts : DataFrame :=
  {| columns := ["text"; "emotion"];
     rows := [ {["emotion" := "happy"]}; {["emotion" := "sad"]} ] |}.

Definition disk_4 (path : string) : option DataFrame :=
  if decide (path = "blank.csv") then Some no_texts else None.

Definition world_5 : @world Replay.tape := Replay.start draws_1 disk_4.

(** What the augmentation loop keeps true of the two lists it builds. *)
Definition augmented_ok (df : DataFrame) (visited : list (gmap string string))
    (acc : list string * list string) : Prop :=
  length acc.1 = length acc.2
  /\ length visited <= length acc.1 <= 3 * length visited
  /\ Forall (fun v => v <> "") acc.1
  /\ Forall (fun label =>
               exists row text,
                 row ∈ rows df /\ row !! "text" = Some text
                 /\ row !! "emotion" = Some label) acc.2
  /\ Forall (fun row' =>
               exists text, row' !! "text" = Some text /\ text ∈ acc.1)
       visited.

(** A downloader that installs the resource the training script pairs
    with a package, and an empty data directory. *)
Definition table_downloader : NltkBootstrap.Downloader :=
  {| NltkBootstrap.install := fun pkg_id data =>
       data ∪ list_to_set
                (omap (fun entry : string * string =>
                         if decide (entry.1 = pkg_id) then Some entry.2
                         else None)
                   NltkBootstrap.required_packages) |}.

Definition no_data : NltkData.state :=
  {| NltkData.resources := ∅; NltkData.requested := [] |}.


(** The script started on [data.csv], which lacks the [emotion] column,
    with no NLTK data installed. *)
Definition process_2 : process Replay.tape :=
  {| nltk_data := no_data; state := world_2 |}.

(** Libraries as [flat_epochs], but without access to the pretrained
    network. *)
Definition offline : Libraries :=
  {| str_lower := PyStr.lower;
     re_sub_non_letters := PyStr.keep_chars PyStr.is_az_or_space;
     word_tokenize := PyStr.split;
     lemmatize := fun word => word;
     from_pretrained := fun _ => false;
     train_loader_len := fun _ _ => Some 1;
     val_accuracy := fun _ => 0%float |}.

(** The script started on [ten.csv] with no NLTK data installed. *)
Definition process_4 : process Replay.tape :=
  {| nltk_data := no_data; state := world_4 |}.

(** * Properties *)

(** ** Words of a text *)

Module PyStrFacts.
Import PyStr.

Lemma append_cons c s t : String c s +:+ t = String c (s +:+ t).
Proof. reflexivity. Qed.

Lemma append_nil_l s : "" +:+ s = s.
Proof. reflexivity. Qed.

Lemma append_nil_r s : s +:+ "" = s.
Proof. induction s as [|c s IH]; [done|]. by rewrite append_cons, IH. Qed.

Lemma append_assoc s t u : (s +:+ t) +:+ u = s +:+ (t +:+ u).
Proof. induction s as [|c s IH]; [done|]. by rewrite !append_cons, IH. Qed.

Lemma append_eq_nil s t : s +:+ t = "" -> s = "" /\ t = "".
Proof. destruct s; [done|]. rewrite append_cons. discriminate. Qed.

Lemma nospace_app s t :
  nospace (s +:+ t) = nospace s && nospace t.
Proof.
  induction s as [|c s IH]; [done|].
  rewrite append_cons. simpl. rewrite IH. by rewrite andb_assoc.
Qed.

Lemma isspace_blank : isspace " " = true.
Proof. reflexivity. Qed.

(** Every word that [split] produces is non-empty and free of white
    space. *)
Lemma split_go_words s : forall cur,
  nospace cur = true -> Forall is_word (split_go cur s).
Proof.
  induction s as [|c s IH]; intros cur Hcur; simpl.
  - destruct (decide (cur = "")); [constructor|].
    repeat constructor; done.
  - destruct (isspace c) eqn:Hc.
    + apply Forall_app. split; [|by apply IH].
      destruct (decide (cur = "")); [constructor|].
      repeat constructor; done.
    + apply IH. rewrite nospace_app. simpl. by rewrite Hcur, Hc.
Qed.

Lemma split_words text : Forall is_word (split text).
Proof. by apply split_go_words. Qed.

(** Reading a word extends the current word and yields nothing yet. *)
Lemma split_go_app_word w : forall cur s,
  nospace w = true -> split_go cur (w +:+ s) = split_go (cur +:+ w) s.
Proof.
  induction w as [|c w IH]; intros cur s Hw.
  - by rewrite append_nil_l, append_nil_r.
  - simpl in Hw. apply andb_prop in Hw as [Hc Hw].
    apply negb_true_iff in Hc.
    rewrite append_cons. simpl. rewrite Hc.
    rewrite IH by done. by rewrite append_assoc.
Qed.

Lemma split_go_blank cur s :
  split_go cur (String " " s)
  = (if decide (cur = "") then [] else [cur]) ++ split_go "" s.
Proof. reflexivity. Qed.

Lemma join_cons w w2 ws :
  join " " (w :: w2 :: ws) = w +:+ String " " (join " " (w2 :: ws)).
Proof. reflexivity. Qed.

Lemma split_go_join w ws : forall cur,
  nospace cur = true -> Forall is_word (w :: ws) ->
  split_go cur (join " " (w :: ws)) = (cur +:+ w) :: ws.
Proof.
  revert w. induction ws as [|w2 ws IH]; intros w cur Hcur Hall.
  - apply Forall_cons in Hall as [[Hne Hw] _].
    change (join " " [w]) with w.
    rewrite <- (append_nil_r w) at 1. rewrite split_go_app_word by done.
    simpl. destruct (decide (cur +:+ w = "")) as [Heq|]; [|done].
    apply append_eq_nil in Heq as [_ ?]. done.
  - apply Forall_cons in Hall as [[Hne Hw] Hall].
    rewrite join_cons, split_go_app_word, split_go_blank by done.
    rewrite (IH w2 "") by done. rewrite append_nil_l.
    destruct (decide (cur +:+ w = "")) as [Heq|]; [|done].
    apply append_eq_nil in Heq as [_ ?]. done.
Qed.

(** Splitting the text that joins a list of words gives the list back. *)
Lemma split_join ws : Forall is_word ws -> split (join " " ws) = ws.
Proof.
  destruct ws as [|w ws]; [done|]. intros Hall.
  unfold split. by rewrite split_go_join.
Qed.

End PyStrFacts.

(** ** Reasoning about the monad *)

Section MonadFacts.

Context {rng : Type} {source : RandomSource rng} {libs : Libraries}.
#[local] Abbreviation M := (@M rng).
#[local] Abbreviation world := (@world rng).

Lemma run_bind {A B} (m : M A) (k : A -> M B) w :
  (m ≫= k) w =
  match m w with
  | (Ok a, w') => k a w'
  | (Raise e, w') => (Raise e, w')
  end.
Proof. reflexivity. Qed.

Lemma run_bind_ok {A B} (m : M A) (k : A -> M B) w a w' :
  m w = (Ok a, w') -> (m ≫= k) w = k a w'.
Proof. intros Hm. by rewrite run_bind, Hm. Qed.

Lemma run_bind_raise {A B} (m : M A) (k : A -> M B) w e w' :
  m w = (Raise e, w') -> (m ≫= k) w = (Raise e, w').
Proof. intros Hm. by rewrite run_bind, Hm. Qed.

Lemma returns_ret {A} (a : A) w (Q : A -> world -> Prop) :
  Q a w -> returns (ret a) w Q.
Proof. intros HQ. by exists a, w. Qed.

Lemma returns_bind {A B} (m : M A) (k : A -> M B) w
    (Q : B -> world -> Prop) :
  returns m w (fun a w' => returns (k a) w' Q) -> returns (m ≫= k) w Q.
Proof.
  intros (a & w' & Hm & b & w'' & Hk & HQ).
  exists b, w''. split; [|done]. by rewrite (run_bind_ok _ _ _ _ _ Hm).
Qed.

Lemma returns_weaken {A} (m : M A) w (P Q : A -> world -> Prop) :
  (forall a w', P a w' -> Q a w') -> returns m w P -> returns m w Q.
Proof. intros HPQ (a & w' & Hm & HP). exists a, w'. auto. Qed.

(** The loop rule: an invariant indexed by the elements already visited. *)
Lemma for_each_returns {A S} (I : list A -> S -> world -> Prop)
    (body : A -> S -> M S) (xs : list A) :
  forall visited acc w,
    I visited acc w ->
    (forall seen x acc w, x ∈ xs -> I seen acc w ->
       returns (body x acc) w (I (seen ++ [x]))) ->
    returns (for_each xs body acc) w (I (visited ++ xs)).
Proof.
  induction xs as [|x xs IH]; intros visited acc w HI Hbody.
  - rewrite app_nil_r. by apply returns_ret.
  - simpl. apply returns_bind.
    eapply returns_weaken; [|apply (Hbody visited x); [left|done]].
    intros acc' w' HI'. simpl in HI'.
    replace (visited ++ x :: xs) with ((visited ++ [x]) ++ xs)
      by (by rewrite <- app_assoc).
    apply IH; [done|]. intros seen y acc0 w0 Hy. apply Hbody. by right.
Qed.

Lemma emit_run ev (w : world) :
  emit ev w
  = (Ok tt, {| gen := gen w; csv := csv w; trace := trace w ++ [ev] |}).
Proof. reflexivity. Qed.

End MonadFacts.

(** ** The augmenter *)

Section AugmenterFacts.

Context {rng : Type} {source : RandomSource rng} {libs : Libraries}.
#[local] Abbreviation M := (@M rng).
#[local] Abbreviation world := (@world rng).

(** A swap of two neighbours inside the list returns normally and permutes
    the list. *)
Lemma swap_adjacent_returns i (ws : list string) (w : world) :
  S i < length ws ->
  returns (swap_adjacent i ws) w (fun ws' w' => ws' ≡ₚ ws /\ w' = w).
Proof.
  intros Hi. unfold swap_adjacent.
  destruct (lookup_lt_is_Some_2 ws i) as [a Ha]; [lia|].
  destruct (lookup_lt_is_Some_2 ws (S i)) as [b Hb]; [lia|].
  rewrite Ha, Hb. apply returns_ret. split; [|done].
  by apply Permutation_insert_swap.
Qed.

Lemma swap_body_returns i (ws : list string) (w : world) :
  S i < length ws ->
  returns (swap_body i ws) w
    (fun ws' w' => ws' ≡ₚ ws /\ csv w' = csv w /\ trace w' = trace w).
Proof.
  intros Hi. unfold swap_body. apply returns_bind.
  unfold returns at 1, np_random_random.
  destruct (random (gen w)) as [r g] eqn:Hr.
  eexists _, _. split; [reflexivity|].
  destruct (r <? 0.3)%float.
  - eapply returns_weaken; [|by apply swap_adjacent_returns].
    intros ws' w' [Hp ->]. done.
  - by apply returns_ret.
Qed.

(** The swap loop over [range(len(words) - 1)]: it never raises, and what
    it returns is a permutation of the words it started from. *)
Lemma swap_loop_returns (words : list string) (w : world) :
  returns (for_each (seq 0 (length words - 1)) swap_body words) w
    (fun ws' w' => ws' ≡ₚ words /\ csv w' = csv w /\ trace w' = trace w).
Proof.
  apply (for_each_returns
           (fun _ ws' w' =>
              ws' ≡ₚ words /\ csv w' = csv w /\ trace w' = trace w)
           swap_body (seq 0 (length words - 1)) []); [done|].
  intros _ i ws w0 Hi (Hp & Hc & Ht).
  apply elem_of_seq in Hi.
  eapply returns_weaken; [|apply swap_body_returns].
  - intros ws' w' (Hp' & Hc' & Ht'). split; [by rewrite Hp'|].
    split; congruence.
  - rewrite (Permutation_length Hp). lia.
Qed.

Lemma np_random_randint_returns lo hi (w : world) :
  lo < hi ->
  returns (np_random_randint lo hi) w
    (fun n w' => lo <= n < hi /\ csv w' = csv w /\ trace w' = trace w).
Proof.
  intros Hlt. unfold returns, np_random_randint.
  pose proof (randint_range lo hi (gen w) Hlt) as Hr.
  destruct (randint lo hi (gen w)) as [n g]. simpl in Hr.
  eexists _, _. split; [reflexivity|]. done.
Qed.

(** The shape of the answer on a text of more than three words. *)
Lemma augment_text_long text (w : world) :
  3 < length (PyStr.split text) ->
  returns (augment_text text) w
    (fun variants w' =>
       csv w' = csv w /\ trace w' = trace w /\
       exists swapped, swapped ≡ₚ PyStr.split text /\
         if 4 <? length (PyStr.split text) then
           exists remove_idx, remove_idx < length (PyStr.split text) /\
             variants =
               [text;
                PyStr.join " " (remove_word remove_idx (PyStr.split text));
                PyStr.join " " swapped]
         else variants = [text; PyStr.join " " swapped]).
Proof.
  intros Hlen. unfold augment_text.
  destruct (length (PyStr.split text) <=? 3) eqn:Hle;
    [apply Nat.leb_le in Hle; lia|].
  apply returns_bind.
  destruct (4 <? length (PyStr.split text)) eqn:H4.
  - apply returns_bind.
    eapply returns_weaken; [|apply np_random_randint_returns; lia].
    intros n w1 (Hn & Hc1 & Ht1). apply returns_ret.
    apply returns_bind.
    eapply returns_weaken; [|apply swap_loop_returns].
    intros ws' w2 (Hp & Hc2 & Ht2). apply returns_ret.
    split; [congruence|]. split; [congruence|].
    exists ws'. split; [done|]. exists n. split; [lia|done].
  - apply returns_ret. apply returns_bind.
    eapply returns_weaken; [|apply swap_loop_returns].
    intros ws' w2 (Hp & Hc2 & Ht2). apply returns_ret.
    split; [done|]. split; [done|]. by exists ws'.
Qed.

End AugmenterFacts.

Section AugmenterClaims.

Context {rng : Type} {source : RandomSource rng} {libs : Libraries}.
#[local] Abbreviation world := (@world rng).

(** C7.  For every normalized text whose word count is at most 3, the
    augmenter returns exactly one variant, and that variant is the input
    text itself; no random number is drawn. *)
Theorem augment_text_short text (w : world) :
  length (PyStr.split text) <= 3 ->
  augment_text text w = (Ok [text], w).
Proof.
  intros Hlen. unfold augment_text.
  destruct (length (PyStr.split text) <=? 3) eqn:Hle; [done|].
  apply Nat.leb_gt in Hle. lia.
Qed.

(** C2, as the code has it.  A text of more than four words gets exactly
    three variants in order: the text itself, the text with the word at a
    drawn index removed, and the text with its words swapped; a text of
    exactly four words gets exactly two, the text itself and the swapped
    one.  The first variant is the input, and the augmentation loop appends
    one copy of the row's label for each variant. *)
Theorem augment_text_variants text emotion (row : gmap string string)
    (acc : list string * list string) (w : world) :
  3 < length (PyStr.split text) ->
  row !! "text" = Some text ->
  row !! "emotion" = Some emotion ->
  exists variants w',
    augment_text text w = (Ok variants, w')
    /\ head variants = Some text
    /\ (exists swapped, swapped ≡ₚ PyStr.split text /\
          if 4 <? length (PyStr.split text) then
            exists remove_idx, remove_idx < length (PyStr.split text) /\
              variants =
                [text;
                 PyStr.join " " (remove_word remove_idx (PyStr.split text));
                 PyStr.join " " swapped]
          else variants = [text; PyStr.join " " swapped])
    /\ augment_row row acc w
       = (Ok (acc.1 ++ variants,
              acc.2 ++ replicate (length variants) emotion), w').
Proof.
  intros Hlen Htext Hemotion.
  destruct (augment_text_long text w Hlen)
    as (variants & w' & Hrun & _ & _ & swapped & Hperm & Hshape).
  exists variants, w'. split; [done|]. split.
  - destruct (4 <? length (PyStr.split text)).
    + destruct Hshape as (idx & _ & ->). done.
    + by subst variants.
  - split; [by exists swapped|].
    unfold augment_row. rewrite Htext, Hemotion.
    by rewrite (run_bind_ok _ _ _ _ _ Hrun).
Qed.

(** C9.  Whatever the random draws, the swapped variant of a text of more
    than three words, when split again, has the words of the input:
    the same multiset, hence the same number of words. *)
Theorem swap_variant_permutation text (w : world) :
  3 < length (PyStr.split text) ->
  exists variants w' swapped,
    augment_text text w = (Ok variants, w')
    /\ last variants = Some swapped
    /\ PyStr.split swapped ≡ₚ PyStr.split text
    /\ length (PyStr.split swapped) = length (PyStr.split text).
Proof.
  intros Hlen.
  destruct (augment_text_long text w Hlen)
    as (variants & w' & Hrun & _ & _ & ws & Hperm & Hshape).
  assert (Hsplit : PyStr.split (PyStr.join " " ws) = ws).
  { apply PyStrFacts.split_join.
    eapply Permutation_Forall; [symmetry; exact Hperm|].
    apply PyStrFacts.split_words. }
  exists variants, w', (PyStr.join " " ws).
  split; [done|]. split.
  - destruct (4 <? length (PyStr.split text)).
    + destruct Hshape as (idx & _ & ->). done.
    + by subst variants.
  - rewrite Hsplit. split; [done|]. by apply Permutation_length.
Qed.

End AugmenterClaims.

(** The word sequence itself: for every list of words and every outcome of
    the draws, the swap loop returns a permutation of the list. *)
Lemma swap_loop_permutation {rng : Type} `{RandomSource rng}
    (words : list string) (w : @world rng) :
  exists swapped w',
    for_each (seq 0 (length words - 1)) swap_body words w = (Ok swapped, w')
    /\ swapped ≡ₚ words.
Proof.
  destruct (swap_loop_returns words w) as (ws & w' & Hrun & Hperm & _).
  by exists ws, w'.
Qed.

(** ** The augmenter on concrete texts *)

Lemma augment_text_short_witness :
  length (PyStr.split "i am good") <= 3
  /\ @augment_text _ _ "i am good" world_1 = (Ok ["i am good"], world_1).
Proof.
  split; [vm_compute; lia|].
  apply (augment_text_short "i am good" world_1). vm_compute. lia.
Defined.

(** C2 fails on a text of four words: two variants, not three. *)
Lemma augment_text_four_words :
  3 < length (PyStr.split "a b c d")
  /\ (@augment_text _ _ "a b c d" world_1).1 = Ok ["a b c d"; "b a d c"]
  /\ ~ (exists variants,
          (@augment_text _ _ "a b c d" world_1).1 = Ok variants
          /\ length variants = 3).
Proof.
  split; [vm_compute; lia|]. split; [reflexivity|].
  intros (variants & Hrun & Hlen).
  assert (Heq : (@augment_text _ _ "a b c d" world_1).1
                = Ok ["a b c d"; "b a d c"]) by reflexivity.
  rewrite Heq in Hrun. injection Hrun as <-. discriminate Hlen.
Qed.

Lemma augment_text_variants_witness :
  exists variants w',
    @augment_text _ _ "a b c d e" world_1 = (Ok variants, w')
    /\ length variants = 3
    /\ @augment_row _ _ {["text" := "a b c d e"; "emotion" := "sad"]}
         ([], []) world_1
       = (Ok (variants, replicate 3 "sad"), w').
Proof.
  destruct (@augment_text_variants _ _ "a b c d e" "sad"
              {["text" := "a b c d e"; "emotion" := "sad"]} ([], []) world_1)
    as (variants & w' & Hrun & _ & (swapped & _ & Hshape) & Hrow);
    [vm_compute; lia | reflexivity | reflexivity |].
  destruct Hshape as (idx & _ & ->).
  eexists _, w'. split; [exact Hrun|]. split; [reflexivity|]. exact Hrow.
Defined.

Lemma swap_variant_permutation_witness :
  exists variants w' swapped,
    @augment_text _ _ "a b c d" world_1 = (Ok variants, w')
    /\ last variants = Some swapped
    /\ PyStr.split swapped ≡ₚ PyStr.split "a b c d"
    /\ length (PyStr.split swapped) = length (PyStr.split "a b c d").
Proof.
  apply (swap_variant_permutation "a b c d" world_1). vm_compute. lia.
Defined.

(** ** The label vocabulary *)

Module LabelEncoderFacts.
Import LabelEncoder.

Lemma compare_refl x : (x ?= x)%string = Eq.
Proof.
pose proof (String.compare_antisym x x) as Hsym.
destruct (x ?= x)%string; simpl in Hsym; congruence.
Qed.

Lemma lt_irrefl x : ~ lt x x.
Proof. unfold lt, String.ltb. by rewrite compare_refl. Qed.

Lemma lt_asym x y : lt x y -> ~ lt y x.
Proof.
unfold lt, String.ltb. rewrite (String.compare_antisym y x).
destruct (x ?= y)%string; simpl; congruence.
Qed.

Lemma lt_le_ne x y : lt x y <-> (x ≤ y)%string /\ x <> y.
Proof.
unfold lt, String.le, String.ltb, String.leb. split.
- intros Hlt. split.
  + by destruct (x ?= y)%string.
  + intros ->. by rewrite compare_refl in Hlt.
- intros [Hle Hne].
  destruct (x ?= y)%string eqn:Hc; [|done|done].
  by apply String.compare_eq_iff in Hc.
Qed.

Lemma collapse_runs_cons a b l :
  collapse_runs (a :: b :: l)
  = if decide (a = b) then collapse_runs (b :: l)
    else a :: collapse_runs (b :: l).
Proof. reflexivity. Qed.

(** Collapsing runs neither adds nor loses a value. *)
Lemma elem_of_collapse_runs l x : x ∈ collapse_runs l <-> x ∈ l.
Proof.
induction l as [|a l IH]; [done|].
destruct l as [|b l]; [done|].
rewrite collapse_runs_cons.
destruct (decide (a = b)) as [->|Hne].
- rewrite IH. rewrite !elem_of_cons. tauto.
- rewrite elem_of_cons, IH. by rewrite (elem_of_cons (b :: l)).
Qed.

(** On a sorted list, collapsing runs leaves a strictly increasing list. *)
Lemma collapse_runs_sorted l :
  StronglySorted String.le l -> StronglySorted lt (collapse_runs l).
Proof.
induction l as [|a l IH]; intros Hs; [constructor|].
apply StronglySorted_inv in Hs as [Hs Ha].
destruct l as [|b l]; [repeat constructor|].
rewrite collapse_runs_cons.
destruct (decide (a = b)) as [->|Hne]; [by apply IH|].
constructor; [by apply IH|].
apply Forall_forall. intros x Hx. rewrite elem_of_collapse_runs in Hx.
apply lt_le_ne. split.
- by apply (proj1 (Forall_forall _ _) Ha).
- intros <-. apply Hne.
  apply StronglySorted_inv in Hs as [_ Hb].
  apply Forall_cons in Ha as [Hab _].
  apply elem_of_cons in Hx as [Hx|Hx]; [done|].
  apply (anti_symm String.le); [done|].
  by apply (proj1 (Forall_forall _ _) Hb).
Qed.

Lemma strictly_sorted_NoDup l : StronglySorted lt l -> NoDup l.
Proof.
induction 1 as [|a l Hs IH Ha]; constructor; [|done].
intros Hin. apply (lt_irrefl a).
by apply (proj1 (Forall_forall _ _) Ha).
Qed.

(** A strictly increasing list is determined by the set of its elements. *)
Lemma strictly_sorted_unique l1 l2 :
  StronglySorted lt l1 -> StronglySorted lt l2 ->
  (forall x, x ∈ l1 <-> x ∈ l2) -> l1 = l2.
Proof.
intros Hs1 Hs2 Hsame.
apply (StronglySorted_unique_strong lt); [|done|done|].
- intros x1 x2 _ _ H12 H21. by destruct (lt_asym x1 x2).
- apply NoDup_Permutation; auto using strictly_sorted_NoDup.
Qed.

Lemma np_unique_sorted labels : StronglySorted lt (np_unique labels).
Proof.
apply collapse_runs_sorted. apply StronglySorted_merge_sort; apply _.
Qed.

Lemma elem_of_np_unique labels x : x ∈ np_unique labels <-> x ∈ labels.
Proof.
unfold np_unique. rewrite elem_of_collapse_runs.
by rewrite (merge_sort_Permutation String.le labels).
Qed.

Lemma filter_lt_none (label : string) l :
  Forall (lt label) l ->
  filter (fun c => String.ltb c label = true) l = [].
Proof.
induction 1 as [|c l Hc _ IH]; [done|].
rewrite filter_cons_False; [done|]. by apply lt_asym.
Qed.

(** In a strictly increasing list, the number of elements below a member is
    the position of that member. *)
Lemma encode_lookup classes label :
  StronglySorted lt classes -> label ∈ classes ->
  classes !! encode classes label = Some label.
Proof.
unfold encode.
induction 1 as [|c l Hs IH Hc]; intros Hin; [by apply elem_of_nil in Hin|].
apply elem_of_cons in Hin as [->|Hin].
- rewrite filter_cons_False by apply lt_irrefl.
  by rewrite filter_lt_none.
- rewrite filter_cons_True
    by (by apply (proj1 (Forall_forall _ _) Hc)).
  simpl. by apply IH.
Qed.

End LabelEncoderFacts.

(** C3.  The classes are the distinct labels in strictly increasing
    lexicographic order; the id of a label is its position in that list, so
    the ids are exactly 0..k-1; every row is encoded by the id of its label;
    and two inputs with the same set of labels, whatever the order or the
    multiplicity of their rows, get the same classes.  On
    sad, happy, sad, suicidal the ids are happy:0, sad:1, suicidal:2. *)
Theorem label_vocabulary (labels labels' : list string) :
  (forall x, x ∈ labels <-> x ∈ labels') ->
  let classes_ := (LabelEncoder.fit_transform labels).1 in
  StronglySorted LabelEncoder.lt classes_
  /\ (forall x, x ∈ classes_ <-> x ∈ labels)
  /\ (forall i label,
        classes_ !! i = Some label
        <-> label ∈ labels /\ LabelEncoder.encode classes_ label = i)
  /\ (LabelEncoder.fit_transform labels).2
     = map (LabelEncoder.encode classes_) labels
  /\ (LabelEncoder.fit_transform labels').1 = classes_
  /\ LabelEncoder.fit_transform ["sad"; "happy"; "sad"; "suicidal"]
     = (["happy"; "sad"; "suicidal"], [1; 0; 1; 2]).
Proof.
intros Hsame. simpl.
pose proof (LabelEncoderFacts.np_unique_sorted labels) as Hsorted.
split; [done|].
split; [apply LabelEncoderFacts.elem_of_np_unique|].
split; [|split; [done|split; [|reflexivity]]].
- intros i label. split.
  + intros Hi.
    assert (Hin : label ∈ LabelEncoder.np_unique labels)
      by (by eapply list_elem_of_lookup_2).
    split; [by apply LabelEncoderFacts.elem_of_np_unique|].
    eapply NoDup_lookup;
      [by apply LabelEncoderFacts.strictly_sorted_NoDup| |exact Hi].
    by apply LabelEncoderFacts.encode_lookup.
  + intros [Hin <-]. apply LabelEncoderFacts.encode_lookup; [done|].
    by apply LabelEncoderFacts.elem_of_np_unique.
- apply LabelEncoderFacts.strictly_sorted_unique;
    [apply LabelEncoderFacts.np_unique_sorted..|].
  intros x. rewrite !LabelEncoderFacts.elem_of_np_unique. by rewrite Hsame.
Qed.

Lemma label_vocabulary_witness :
  (LabelEncoder.fit_transform ["suicidal"; "sad"; "happy"]).1
  = (LabelEncoder.fit_transform ["sad"; "happy"; "sad"; "suicidal"]).1.
Proof.
apply (label_vocabulary ["sad"; "happy"; "sad"; "suicidal"]
         ["suicidal"; "sad"; "happy"]).
intros x. rewrite !elem_of_cons, !elem_of_nil. tauto.
Defined.

(** ** The training loop: steps and checkpoints *)

(** No float is strictly below itself. *)
Lemma float_ltb_irrefl (x : float) : (x <? x)%float = false.
Proof.
rewrite ltb_spec. unfold SFltb, SFcompare.
destruct (Prim2SF x) as [s|s| |s m e]; try done.
- by destruct s.
- rewrite Z.compare_refl, Pcompare_refl. by destruct s.
Qed.

Section TrainingFacts.

Context {rng : Type} {source : RandomSource rng} {libs : Libraries}.
#[local] Abbreviation world := (@world rng).

(** The state after the events [evs] have been appended to the trace. *)
Lemma emit_twice ev1 ev2 (w : world) :
  (emit ev1;; emit ev2) w
  = (Ok tt, {| gen := gen w; csv := csv w;
               trace := trace w ++ [ev1; ev2] |}).
Proof.
rewrite (run_bind_ok _ _ _ _ _ (emit_run ev1 w)). rewrite emit_run. simpl.
by rewrite <- app_assoc.
Qed.

Lemma train_batch_run (w : world) :
  train_batch w
  = (Ok tt, {| gen := gen w; csv := csv w;
               trace := trace w ++ [OptimizerStep; SchedulerStep] |}).
Proof. apply emit_twice. Qed.

Lemma train_batches_run n : forall start (w : world),
  for_each (seq start n) (fun _ _ => train_batch) tt w
  = (Ok tt, {| gen := gen w; csv := csv w;
               trace := trace w
                 ++ concat (replicate n [OptimizerStep; SchedulerStep]) |}).
Proof.
induction n as [|n IH]; intros start w.
- simpl. rewrite app_nil_r. by destruct w.
- simpl seq. simpl for_each.
  rewrite (run_bind_ok _ _ _ _ _ (train_batch_run w)).
  rewrite IH. simpl. by rewrite <- app_assoc.
Qed.

(** An epoch over a non-empty loader: one optimiser step followed by one
    scheduler step for each batch, and nothing else. *)
Lemma train_epoch_run n (w : world) :
  1 <= n ->
  train_epoch n w
  = (Ok tt, {| gen := gen w; csv := csv w;
               trace := trace w
                 ++ concat (replicate n [OptimizerStep; SchedulerStep]) |}).
Proof.
intros Hn. unfold train_epoch.
rewrite (run_bind_ok _ _ _ _ _ (train_batches_run n 0 w)).
destruct (n =? 0) eqn:Hz; [apply Nat.eqb_eq in Hz; lia|done].
Qed.

Lemma save_if_best_run epoch (val_acc best_accuracy : float) (w : world) :
  save_if_best epoch val_acc best_accuracy w
  = if (best_accuracy <? val_acc)%float then
      (Ok val_acc,
       {| gen := gen w; csv := csv w;
          trace := trace w ++ [SaveModel (output_path "best_model") epoch;
                               SaveTokenizer (output_path "best_model")
                                 epoch] |})
    else (Ok best_accuracy, w).
Proof.
unfold save_if_best. destruct (best_accuracy <? val_acc)%float; [|done].
rewrite (run_bind_ok _ _ _ _ _ (emit_run _ w)).
rewrite (run_bind_ok _ _ _ _ _ (emit_run _ _)). unfold ret. simpl.
by rewrite <- app_assoc.
Qed.

End TrainingFacts.

(** C4.  The loop starts from [best_accuracy = 0]; after the validation of
    an epoch the model and the tokenizer are saved, and [best_accuracy]
    becomes the validation accuracy, exactly when that accuracy is strictly
    above the current best; an accuracy equal to the best saves nothing.
    With the accuracies 0.60, 0.55, 0.60, 0.72 the model and the tokenizer
    are saved twice, after the first and after the fourth epoch. *)
Theorem checkpoint_selector {rng : Type} {libs : Libraries}
    (data_loader_len epoch : nat) (epochs : list nat)
    (val_acc best_accuracy : float) (w : @world rng) :
  training_loop (rng := rng) data_loader_len epochs
  = for_each epochs (epoch_body data_loader_len) 0%float
  /\ epoch_body (rng := rng) data_loader_len epoch best_accuracy
     = (train_epoch data_loader_len;;
        save_if_best epoch (val_accuracy epoch) best_accuracy)
  /\ save_if_best epoch val_acc best_accuracy w
     = (if (best_accuracy <? val_acc)%float then
          (Ok val_acc,
           {| gen := gen w; csv := csv w;
              trace := trace w
                ++ [SaveModel (output_path "best_model") epoch;
                    SaveTokenizer (output_path "best_model") epoch] |})
        else (Ok best_accuracy, w))
  /\ save_if_best epoch val_acc val_acc w = (Ok val_acc, w)
  /\ (let '(best, w') :=
        training_loop (libs := four_epochs) 1 (seq 0 4) world_1 in
      best = Ok 0.72%float
      /\ saved_models (trace w') = [0; 3]
      /\ saved_tokenizers (trace w') = [0; 3]).
Proof.
split; [reflexivity|]. split; [reflexivity|].
split; [apply save_if_best_run|]. split.
- rewrite save_if_best_run. by rewrite float_ltb_irrefl.
- vm_compute. done.
Qed.

(** ** The learning-rate schedule *)

Module SchedulerFacts.
Import Scheduler.
Local Open Scope Q_scope.

Lemma inject_Z_pos (d : Z) : (0 < d)%Z -> 0 < inject_Z d.
Proof.
intros Hd. change (inject_Z 0 < inject_Z d). by rewrite <- Zlt_Qlt.
Qed.

Lemma ratio_lt (x y d : Z) :
  (0 < d)%Z -> (x < y)%Z -> inject_Z x / inject_Z d < inject_Z y / inject_Z d.
Proof.
intros Hd Hxy. unfold Qdiv. apply Qmult_lt_compat_r.
- apply Qinv_lt_0_compat. by apply inject_Z_pos.
- by rewrite <- Zlt_Qlt.
Qed.

Lemma ratio_one (d : Z) : (0 < d)%Z -> inject_Z d / inject_Z d == 1.
Proof.
intros Hd. unfold Qdiv. apply Qmult_inv_r.
intros Heq. apply (Qlt_irrefl 0). rewrite <- Heq at 2.
by apply inject_Z_pos.
Qed.

Lemma ratio_zero (d : Z) : inject_Z 0 / inject_Z d == 0.
Proof. unfold Qdiv. apply Qmult_0_l. Qed.

Lemma ratio_nonneg (x d : Z) :
  (0 < d)%Z -> (0 <= x)%Z -> 0 <= inject_Z x / inject_Z d.
Proof.
intros Hd Hx. apply Qle_shift_div_l; [by apply inject_Z_pos|].
rewrite Qmult_0_l. change (inject_Z 0 <= inject_Z x). by rewrite <- Zle_Qle.
Qed.

(** During the warm-up the multiplier is [step / warmup]. *)
Lemma lr_lambda_warmup (warmup total step : nat) :
  (step < warmup)%nat ->
  lr_lambda warmup total step
  = inject_Z (Z.of_nat step) / inject_Z (Z.of_nat warmup).
Proof.
intros Hlt. unfold lr_lambda.
destruct (step <? warmup)%nat eqn:Hs; [|apply Nat.ltb_ge in Hs; lia].
by rewrite Z.max_r by lia.
Qed.

(** After the warm-up and up to the last step it is
    [(total - step) / (total - warmup)]. *)
Lemma lr_lambda_decay (warmup total step : nat) :
  (warmup <= step <= total)%nat -> (warmup < total)%nat ->
  lr_lambda warmup total step
  == inject_Z (Z.of_nat total - Z.of_nat step)
     / inject_Z (Z.of_nat total - Z.of_nat warmup).
Proof.
intros Hrange Hwt. unfold lr_lambda.
destruct (step <? warmup)%nat eqn:Hs; [apply Nat.ltb_lt in Hs; lia|].
rewrite Z.max_r by lia.
apply Q.max_r. apply ratio_nonneg; lia.
Qed.

End SchedulerFacts.

(** ** Counting the steps of a whole run *)

Section RunFacts.

Context {rng : Type} {libs : Libraries}.
#[local] Abbreviation world := (@world rng).

Lemma count_event_app ev tr1 tr2 :
  count_event ev (tr1 ++ tr2) = count_event ev tr1 + count_event ev tr2.
Proof. unfold count_event. by rewrite List.filter_app, length_app. Qed.

Lemma concat_replicate_S {A} n (l : list A) :
  concat (replicate (S n) l) = l ++ concat (replicate n l).
Proof. reflexivity. Qed.

Lemma count_scheduler_batches n :
  count_event SchedulerStep
    (concat (replicate n [OptimizerStep; SchedulerStep])) = n.
Proof.
induction n as [|n IH]; [done|].
by rewrite concat_replicate_S, count_event_app, IH.
Qed.

Lemma count_optimizer_batches n :
  count_event OptimizerStep
    (concat (replicate n [OptimizerStep; SchedulerStep])) = n.
Proof.
induction n as [|n IH]; [done|].
by rewrite concat_replicate_S, count_event_app, IH.
Qed.

(** Saving the model and the tokenizer is no training step. *)
Lemma count_event_saves ev path epoch :
  is_training ev = true ->
  count_event ev [SaveModel path epoch; SaveTokenizer path epoch] = 0.
Proof.
intros Hev. unfold count_event. simpl.
rewrite !bool_decide_eq_false_2; [done|intros <-; done..].
Qed.

(** One epoch adds as many optimiser steps and as many scheduler steps as
    the loader has batches; the checkpoint adds none. *)
Lemma epoch_body_steps n epoch best (w : world) :
  1 <= n ->
  returns (epoch_body n epoch best) w
    (fun _ w' =>
       count_event SchedulerStep (trace w')
       = count_event SchedulerStep (trace w) + n
       /\ count_event OptimizerStep (trace w')
          = count_event OptimizerStep (trace w) + n).
Proof.
intros Hn. unfold epoch_body, returns.
rewrite (run_bind_ok _ _ _ _ _ (train_epoch_run n w Hn)).
rewrite save_if_best_run.
destruct (best <? val_accuracy epoch)%float; eexists _, _;
  (split; [reflexivity|]); cbn [trace];
  rewrite !count_event_app, count_scheduler_batches,
    count_optimizer_batches, ?count_event_saves by done; split; lia.
Qed.

(** Over the epochs of a run the scheduler is stepped once per batch and
    epoch, and so is the optimiser. *)
Lemma training_loop_steps n epochs (w : world) :
  1 <= n ->
  returns (training_loop n epochs) w
    (fun _ w' =>
       count_event SchedulerStep (trace w')
       = count_event SchedulerStep (trace w) + length epochs * n
       /\ count_event OptimizerStep (trace w')
          = count_event OptimizerStep (trace w) + length epochs * n).
Proof.
intros Hn. unfold training_loop.
apply (for_each_returns
         (fun visited _ w' =>
            count_event SchedulerStep (trace w')
            = count_event SchedulerStep (trace w) + length visited * n
            /\ count_event OptimizerStep (trace w')
               = count_event OptimizerStep (trace w) + length visited * n)
         (epoch_body n) epochs []); [simpl; lia|].
intros seen epoch best w0 _ [Hs Ho].
eapply returns_weaken; [|by apply epoch_body_steps].
intros _ w' [Hs' Ho']. rewrite length_app. simpl. lia.
Qed.

End RunFacts.

(** C6.  With [s >= 1] batches per epoch the warm-up lasts [2 * s] steps and
    the schedule [s * 10] steps (200 and 1000 for [s = 100]); the multiplier
    is 0 at step 0, 1 at the end of the warm-up and 0 at the last step; it
    increases strictly up to the end of the warm-up and decreases strictly
    from there to the last step; and every batch of an epoch performs one
    optimiser step followed by one scheduler step, nothing else stepping
    the scheduler. *)
Theorem lr_schedule {rng : Type} {libs : Libraries} (steps_per_epoch : nat)
    (w : @world rng) :
  1 <= steps_per_epoch ->
  let warmup := warmup_steps steps_per_epoch in
  let total := total_steps steps_per_epoch in
  let multiplier := Scheduler.lr_lambda warmup total in
  warmup = 2 * steps_per_epoch
  /\ total = steps_per_epoch * 10
  /\ warmup_steps 100 = 200 /\ total_steps 100 = 1000
  /\ (multiplier 0%nat == 0)%Q
  /\ (multiplier warmup == 1)%Q
  /\ (multiplier total == 0)%Q
  /\ (forall a b, a < b <= warmup -> (multiplier a < multiplier b)%Q)
  /\ (forall a b, warmup <= a < b -> b <= total ->
        (multiplier b < multiplier a)%Q)
  /\ train_batch w
     = (Ok tt, {| gen := gen w; csv := csv w;
                  trace := trace w ++ [OptimizerStep; SchedulerStep] |})
  /\ train_epoch steps_per_epoch w
     = (Ok tt, {| gen := gen w; csv := csv w;
                  trace := trace w
                    ++ concat (replicate steps_per_epoch
                                 [OptimizerStep; SchedulerStep]) |})
  /\ (exists best w',
        training_loop steps_per_epoch (seq 0 NUM_EPOCHS) w = (Ok best, w')
        /\ count_event SchedulerStep (trace w')
           = count_event SchedulerStep (trace w) + total
        /\ count_event OptimizerStep (trace w')
           = count_event OptimizerStep (trace w) + total).
Proof.
intros Hs warmup total multiplier.
assert (Hw : warmup = 2 * steps_per_epoch)
  by (unfold warmup, warmup_steps; lia).
assert (Ht : total = steps_per_epoch * 10) by reflexivity.
split; [done|]. split; [done|]. split; [reflexivity|]. split; [reflexivity|].
split; [|split; [|split; [|split; [|split; [|split; [|split]]]]]].
- unfold multiplier. rewrite SchedulerFacts.lr_lambda_warmup by lia.
  apply SchedulerFacts.ratio_zero.
- unfold multiplier. rewrite SchedulerFacts.lr_lambda_decay by lia.
  apply SchedulerFacts.ratio_one. lia.
- unfold multiplier. rewrite SchedulerFacts.lr_lambda_decay by lia.
  rewrite Z.sub_diag. apply SchedulerFacts.ratio_zero.
- intros a b [Hab Hb]. unfold multiplier.
  rewrite (SchedulerFacts.lr_lambda_warmup warmup total a) by lia.
  destruct (decide (b = warmup)) as [->|Hne].
  + rewrite SchedulerFacts.lr_lambda_decay by lia.
    rewrite SchedulerFacts.ratio_one by lia.
    rewrite <- (SchedulerFacts.ratio_one (Z.of_nat warmup)) by lia.
    apply SchedulerFacts.ratio_lt; lia.
  + rewrite (SchedulerFacts.lr_lambda_warmup warmup total b) by lia.
    apply SchedulerFacts.ratio_lt; lia.
- intros a b Hab Hb. unfold multiplier.
  rewrite !SchedulerFacts.lr_lambda_decay by lia.
  apply SchedulerFacts.ratio_lt; lia.
- apply train_batch_run.
- by apply train_epoch_run.
- destruct (training_loop_steps steps_per_epoch (seq 0 NUM_EPOCHS) w Hs)
    as (best & w' & Hrun & Hsched & Hopt).
  exists best, w'. rewrite length_seq in Hsched, Hopt.
  unfold total, total_steps. split; [done|]. split; lia.
Qed.

Lemma lr_schedule_witness :
  (Scheduler.lr_lambda 200 1000 0 == 0)%Q
  /\ (Scheduler.lr_lambda 200 1000 200 == 1)%Q
  /\ (Scheduler.lr_lambda 200 1000 1000 == 0)%Q.
Proof.
pose proof (lr_schedule (libs := four_epochs) 100 world_1 ltac:(lia))
  as Hthm.
simpl in Hthm. tauto.
Defined.

(** ** The fine-tuning policy *)

Module BertFacts.
Import Bert.


Lemma freeze_names ps : map name (freeze ps) = map name ps.
Proof. induction ps as [|p ps IH]; [done|]. simpl. by rewrite IH. Qed.



(** Block [i] is frozen when [i < 10] and untouched otherwise. *)
Lemma apply_freezing_block model i layer :
  encoder_layer model !! i = Some layer ->
  encoder_layer (apply_freezing model) !! i
  = Some (if i <? 10 then freeze layer else layer).
Proof.
intros Hi. unfold apply_freezing. simpl.
rewrite list_lookup_imap. by rewrite Hi.
Qed.

End BertFacts.


(** C10.  After the policy the two tensors of the pooler are still
    trainable; their names contain none of [classifier], [layer.11],
    [layer.10]; so they are in no optimiser group, and no optimiser step
    updates them. *)
Theorem pooler_outside_optimizer :
  let model := Bert.fine_tuned in
  let groups := Bert.optimizer_grouped_parameters model in
  let pooler := Bert.prefixed "bert.pooler." (Bert.pooler model) in
  map Bert.name pooler = ["bert.pooler.dense.weight"; "bert.pooler.dense.bias"]
  /\ pooler ⊆ Bert.named_parameters model
  /\ Forall Bert.trainable pooler
  /\ Forall
       (fun p =>
          PyStr.contains "classifier" (Bert.name p) = false
          /\ PyStr.contains "layer.11" (Bert.name p) = false
          /\ PyStr.contains "layer.10" (Bert.name p) = false) pooler
  /\ Forall (fun p => Forall (fun g => p ∉ Bert.params g) groups) pooler
  /\ Forall (fun p => p ∉ Bert.updated_by_optimizer groups) pooler.
Proof.
intros model groups pooler.
split; [reflexivity|].
split; [apply (bool_decide_unpack _); vm_compute; exact I|].
split; [vm_compute; repeat constructor|].
split; [vm_compute; repeat constructor|].
split; apply (bool_decide_unpack _); vm_compute; exact I.
Qed.

(** ** Loading the data set *)

Section LoadFacts.

Context {rng : Type} {source : RandomSource rng} {libs : Libraries}.
#[local] Abbreviation world := (@world rng).

(** A text of at most three words comes back alone and unchanged. *)
Lemma augment_text_few_words text (w : world) :
  length (PyStr.split text) <= 3 -> augment_text text w = (Ok [text], w).
Proof.
intros Hlen. unfold augment_text.
destruct (length (PyStr.split text) <=? 3) eqn:Hle; [done|].
apply Nat.leb_gt in Hle. lia.
Qed.

(** The augmenter never raises, and touches neither the disk nor the
    trace. *)
Lemma augment_text_returns text (w : world) :
  returns (augment_text text) w
    (fun _ w' => csv w' = csv w /\ trace w' = trace w).
Proof.
destruct (le_lt_dec (length (PyStr.split text)) 3) as [Hle|Hgt].
- exists [text], w. split; [by apply augment_text_few_words|done].
- eapply returns_weaken; [|by apply augment_text_long].
  intros variants w' (Hc & Ht & _). done.
Qed.

Lemma augment_row_returns (row : gmap string string) acc (w : world) :
  is_Some (row !! "text") -> is_Some (row !! "emotion") ->
  returns (augment_row row acc) w
    (fun _ w' => csv w' = csv w /\ trace w' = trace w).
Proof.
intros [text Htext] [emotion Hemotion]. unfold augment_row.
rewrite Htext, Hemotion. apply returns_bind.
eapply returns_weaken; [|apply augment_text_returns].
intros variants w' Hw'. by apply returns_ret.
Qed.

Lemma filter_idempotent {A} (f : A -> bool) (l : list A) :
  List.filter f (List.filter f l) = List.filter f l.
Proof.
induction l as [|x l IH]; [done|]. simpl.
destruct (f x) eqn:Hx; [|done]. simpl. by rewrite Hx, IH.
Qed.

Lemma elem_of_bool_filter {A} (f : A -> bool) (l : list A) x :
  x ∈ List.filter f l <-> x ∈ l /\ f x = true.
Proof. rewrite !list_elem_of_In. apply filter_In. Qed.

Lemma complete_text_emotion (row : gmap string string) :
  complete ["text"; "emotion"] row = true
  <-> is_Some (row !! "text") /\ is_Some (row !! "emotion").
Proof.
unfold complete. simpl. rewrite !andb_true_iff, !bool_decide_eq_true.
tauto.
Qed.

(** Where a prepared row comes from: a row of the data set that has both
    fields, with its text normalised. *)
Lemma prepared_rows_origin df (row' : gmap string string) :
  row' ∈ prepared_rows df ->
  exists row text emotion,
    row ∈ rows df
    /\ row !! "text" = Some text /\ row !! "emotion" = Some emotion
    /\ row' = <["text" := preprocess_text (Some text)]> row.
Proof.
unfold prepared_rows. simpl. intros Hin.
apply elem_of_bool_filter in Hin as [Hin _].
apply list_elem_of_fmap in Hin as (row & -> & Hin).
apply elem_of_bool_filter in Hin as [Hin Hc].
apply complete_text_emotion in Hc as [[text Ht] [emotion He]].
exists row, text, emotion. by rewrite Ht.
Qed.

Lemma prepared_rows_complete df (row' : gmap string string) :
  row' ∈ prepared_rows df ->
  is_Some (row' !! "text") /\ is_Some (row' !! "emotion").
Proof.
intros Hin.
destruct (prepared_rows_origin df row' Hin)
  as (row & text & emotion & _ & Ht & He & ->).
split.
- rewrite lookup_insert_eq. by eexists.
- rewrite lookup_insert_ne by done. by eexists.
Qed.

(** Rows with a missing field have no influence on what is prepared. *)
Lemma prepared_rows_dropna df :
  prepared_rows df
  = prepared_rows
      {| columns := columns df;
         rows := List.filter (complete ["text"; "emotion"]) (rows df) |}.
Proof. unfold prepared_rows. simpl. by rewrite filter_idempotent. Qed.

Lemma has_required_columns df :
  forallb (fun col => bool_decide (col ∈ columns df)) required_columns = true
  <-> "text" ∈ columns df /\ "emotion" ∈ columns df.
Proof.
unfold required_columns. simpl.
rewrite !andb_true_iff, !bool_decide_eq_true. tauto.
Qed.

(** With both columns present and a text column of strings, loading is the
    augmentation loop over the prepared rows. *)
Lemma load_run file_path df (w : world) :
  csv w file_path = Some df ->
  "text" ∈ columns df /\ "emotion" ∈ columns df ->
  text_dtype_is_object df = true ->
  load_and_preprocess_data file_path w
  = for_each (prepared_rows df) augment_row ([], []) w.
Proof.
intros Hcsv Hcols Hdtype. unfold load_and_preprocess_data.
assert (Hread : pd_read_csv file_path w = (Ok df, w))
  by (unfold pd_read_csv; by rewrite Hcsv).
rewrite (run_bind_ok _ _ _ _ _ Hread).
apply has_required_columns in Hcols. by rewrite Hcols, Hdtype.
Qed.

(** With both columns present but no string in the text column, the
    [.str] accessor raises. *)
Lemma load_no_strings file_path df (w : world) :
  csv w file_path = Some df ->
  "text" ∈ columns df /\ "emotion" ∈ columns df ->
  text_dtype_is_object df = false ->
  load_and_preprocess_data file_path w = (Raise AttributeError, w).
Proof.
intros Hcsv Hcols Hdtype. unfold load_and_preprocess_data.
assert (Hread : pd_read_csv file_path w = (Ok df, w))
  by (unfold pd_read_csv; by rewrite Hcsv).
rewrite (run_bind_ok _ _ _ _ _ Hread).
apply has_required_columns in Hcols. by rewrite Hcols, Hdtype.
Qed.

(** Without one of them it raises [ValueError] at once. *)
Lemma load_missing_column file_path df (w : world) :
  csv w file_path = Some df ->
  ~ ("text" ∈ columns df /\ "emotion" ∈ columns df) ->
  exists msg,
    load_and_preprocess_data file_path w = (Raise (ValueError msg), w).
Proof.
intros Hcsv Hcols. unfold load_and_preprocess_data.
assert (Hread : pd_read_csv file_path w = (Ok df, w))
  by (unfold pd_read_csv; by rewrite Hcsv).
rewrite (run_bind_ok _ _ _ _ _ Hread).
destruct (forallb _ required_columns) eqn:Hall.
- by apply has_required_columns in Hall.
- by eexists.
Qed.

(** Loading a readable data set with both columns and a text column of
    strings never raises. *)
Lemma load_returns file_path df (w : world) :
  csv w file_path = Some df ->
  "text" ∈ columns df /\ "emotion" ∈ columns df ->
  text_dtype_is_object df = true ->
  returns (load_and_preprocess_data file_path) w
    (fun _ w' => csv w' = csv w /\ trace w' = trace w).
Proof.
intros Hcsv Hcols Hdtype. unfold returns.
rewrite (load_run file_path df w Hcsv Hcols Hdtype).
apply (for_each_returns
         (fun _ _ w' => csv w' = csv w /\ trace w' = trace w)
         augment_row (prepared_rows df) []); [done|].
intros _ row acc w0 Hrow [Hc Ht].
apply prepared_rows_complete in Hrow as [Htext Hemotion].
eapply returns_weaken; [|by apply augment_row_returns].
intros _ w' [Hc' Ht']. split; congruence.
Qed.

End LoadFacts.

(** The loader on a data set whose texts are all missing. *)
Example load_all_texts_missing :
  load_and_preprocess_data (libs := four_epochs) "blank.csv" world_5
  = (Raise AttributeError, world_5).
Proof.
apply (load_no_strings (libs := four_epochs) "blank.csv" no_texts world_5
         eq_refl); [|reflexivity].
split; apply (bool_decide_unpack _); vm_compute; exact I.
Qed.

(** C8.  For a readable data set with both required columns, the rows that
    reach the normaliser and the augmenter all stem from rows that have both
    fields, and rows with a missing field have no influence on them: such
    rows are dropped before normalisation.  Loading then augments exactly
    those rows and returns, provided the text column holds strings; when
    every text is missing, the [.str] accessor raises [AttributeError].
    When a required column is absent, the script, after its NLTK bootstrap,
    exits with status 1 having created the output directory and nothing
    else: no training step, no label file, no checkpoint, no configuration
    file. *)
Theorem missing_data_handling {rng : Type} {source : RandomSource rng}
    {libs : Libraries} {downloader : NltkBootstrap.Downloader}
    (program file_path : string) (df : DataFrame)
    (nltk : NltkData.state) (w : @world rng) :
  csv w file_path = Some df ->
  ("text" ∈ columns df /\ "emotion" ∈ columns df ->
     (forall row', row' ∈ prepared_rows df ->
        exists row text emotion,
          row ∈ rows df
          /\ row !! "text" = Some text /\ row !! "emotion" = Some emotion
          /\ row' = <["text" := preprocess_text (Some text)]> row)
     /\ prepared_rows df
        = prepared_rows
            {| columns := columns df;
               rows := List.filter (complete ["text"; "emotion"])
                         (rows df) |}
     /\ (text_dtype_is_object df = true ->
           load_and_preprocess_data file_path w
           = for_each (prepared_rows df) augment_row ([], []) w
           /\ exists texts labels w',
                load_and_preprocess_data file_path w
                = (Ok (texts, labels), w'))
     /\ (text_dtype_is_object df = false ->
           load_and_preprocess_data file_path w = (Raise AttributeError, w)))
  /\ (~ ("text" ∈ columns df /\ "emotion" ∈ columns df) ->
        exists w',
          run_script [program; file_path] {| nltk_data := nltk; state := w |}
          = (1, {| nltk_data := NltkBootstrap.download_nltk_data nltk;
                   state := w' |})
          /\ main [program; file_path] w = (1, w')
          /\ trace w' = trace w ++ [MakeDirs OUTPUT_DIR]
          /\ List.filter is_artifact [MakeDirs OUTPUT_DIR] = []
          /\ List.filter is_training [MakeDirs OUTPUT_DIR] = []).
Proof.
intros Hcsv. split.
- intros Hcols.
  split; [apply prepared_rows_origin|]. split; [apply prepared_rows_dropna|].
  split.
  + intros Hdtype. split; [by apply (load_run file_path df)|].
    destruct (load_returns file_path df w Hcsv Hcols Hdtype)
      as ([texts labels] & w' & Hrun & _).
    by exists texts, labels, w'.
  + intros Hdtype. by apply (load_no_strings file_path df).
- intros Hcols.
  assert (Hmain : main [program; file_path] w
                  = (1, {| gen := gen w; csv := csv w;
                           trace := trace w ++ [MakeDirs OUTPUT_DIR] |})).
  { unfold main. simpl. unfold train_sentiment_model.
    rewrite (run_bind_ok _ _ _ _ _ (emit_run (MakeDirs OUTPUT_DIR) w)).
    set (w1 := {| gen := gen w; csv := csv w;
                  trace := trace w ++ [MakeDirs OUTPUT_DIR] |}).
    destruct (load_missing_column file_path df w1 Hcsv Hcols)
      as [msg Hload].
    by rewrite (run_bind_raise _ _ _ _ _ Hload). }
  eexists. split; [|split; [exact Hmain|done]].
  unfold run_script. cbn [state nltk_data]. by rewrite Hmain.
Qed.

Lemma missing_data_handling_witness :
  exists w',
    run_script (libs := four_epochs) (downloader := table_downloader)
      ["train_model.py"; "data.csv"] process_2
    = (1, {| nltk_data :=
               NltkBootstrap.download_nltk_data (H := table_downloader)
                 no_data;
             state := w' |})
    /\ trace w' = [MakeDirs OUTPUT_DIR].
Proof.
destruct (missing_data_handling (libs := four_epochs)
            (downloader := table_downloader)
            "train_model.py" "data.csv" no_emotion_column no_data world_2
            eq_refl)
  as [_ Hmissing].
destruct Hmissing as (w' & Hscript & _ & Htrace & _).
- intros [_ Hemotion]. revert Hemotion.
  apply (bool_decide_unpack _). vm_compute. exact I.
- exists w'. split; [exact Hscript|exact Htrace].
Defined.

(** ** The escalation rule of the service *)



(** * Further properties of the code *)

(** ** The [/analyze] handler: every answer *)

(** X1.  The handler's error answers, in the order the code checks: a missing
    model wins over everything, also over an empty text; an empty text is a
    400; a predicted index outside the label list, or a threshold variable
    that [float] cannot read, is the generic 500. *)
Theorem analyze_sentiment_errors (srv : App.Service) (text : string) :
  (App.model srv = None ->
     App.analyze_sentiment srv text
     = App.Error 500 "Model not loaded, please check server logs.")
  /\ (is_Some (App.model srv) ->
        App.analyze_sentiment srv "" = App.Error 400 "No text provided")
  /\ (forall classify,
        App.model srv = Some classify -> text <> "" ->
        App.label_encoder_classes srv !! (classify text).2 = None ->
        App.analyze_sentiment srv text
        = App.Error 500 "Internal server error analyzing sentiment.")
  /\ (forall classify value,
        App.model srv = Some classify -> text <> "" ->
        App.getenv srv "SUICIDAL_CONFIDENCE_THRESHOLD" = Some value ->
        App.float_of_string srv value = None ->
        App.analyze_sentiment srv text
        = App.Error 500 "Internal server error analyzing sentiment.").
Proof.
unfold App.analyze_sentiment. split; [|split; [|split]].
- by intros ->.
- by intros [classify ->].
- intros classify -> Hne Hidx.
  destruct (decide (text = "")); [done|].
  destruct (classify text) as [c idx]. simpl in Hidx. by rewrite Hidx.
- intros classify value -> Hne Henv Hparse.
  destruct (decide (text = "")); [done|].
  destruct (classify text) as [c idx].
  unfold App.SUICIDAL_CONFIDENCE_THRESHOLD. rewrite Henv, Hparse.
  by destruct (App.label_encoder_classes srv !! idx).
Qed.

(** X2.  The handler answers with an analysis exactly when the model is loaded,
    the text is not empty, the predicted index is inside the label list and
    the threshold can be read; the analysis then carries the label at the
    predicted index and the model's confidence unchanged. *)
Theorem analyze_sentiment_success (srv : App.Service) (text : string) :
  ((exists emotion confidence help,
      App.analyze_sentiment srv text = App.Analysis emotion confidence help)
   <-> (exists classify,
          App.model srv = Some classify /\ text <> ""
          /\ is_Some (App.label_encoder_classes srv !! (classify text).2)
          /\ is_Some (App.SUICIDAL_CONFIDENCE_THRESHOLD srv)))
  /\ (forall emotion confidence help,
        App.analyze_sentiment srv text
        = App.Analysis emotion confidence help ->
        exists classify,
          App.model srv = Some classify
          /\ confidence = (classify text).1
          /\ App.label_encoder_classes srv !! (classify text).2
             = Some emotion).
Proof.
unfold App.analyze_sentiment. split; [split|].
- intros (emotion & confidence & help & Hrun).
  destruct (App.model srv) as [classify|]; [|discriminate].
  exists classify. destruct (decide (text = "")); [discriminate|].
  destruct (classify text) as [c idx]. simpl.
  destruct (App.label_encoder_classes srv !! idx); [|discriminate].
  destruct (App.SUICIDAL_CONFIDENCE_THRESHOLD srv); [|discriminate].
  repeat split; eauto.
- intros (classify & -> & Hne & [label Hidx] & [threshold Hthr]).
  destruct (decide (text = "")); [done|].
  destruct (classify text) as [c idx]. simpl in Hidx.
  rewrite Hidx, Hthr. eauto.
- intros emotion confidence help Hrun.
  destruct (App.model srv) as [classify|]; [|discriminate].
  exists classify. destruct (decide (text = "")); [discriminate|].
  destruct (classify text) as [c idx]. simpl.
  destruct (App.label_encoder_classes srv !! idx); [|discriminate].
  destruct (App.SUICIDAL_CONFIDENCE_THRESHOLD srv); [|discriminate].
  by injection Hrun as -> -> _.
Qed.

(** ** The normaliser *)

Module CleaningFacts.
Import PyStr.

Lemma lower_char_fixed c : is_az_or_space c = true -> lower_char c = c.
Proof.
destruct c as [[] [] [] [] [] [] [] []]; (reflexivity || discriminate).
Qed.

Lemma lower_char_idempotent c : lower_char (lower_char c) = lower_char c.
Proof. destruct c as [[] [] [] [] [] [] [] []]; reflexivity. Qed.

Lemma lower_idempotent s : lower (lower s) = lower s.
Proof.
induction s as [|c s IH]; [done|]. simpl.
by rewrite lower_char_idempotent, IH.
Qed.

Lemma all_chars_keep p s : all_chars p (keep_chars p s) = true.
Proof.
induction s as [|c s IH]; [done|]. simpl.
destruct (p c) eqn:Hc; [|done]. simpl. by rewrite Hc.
Qed.

Lemma keep_chars_fixed p s : all_chars p s = true -> keep_chars p s = s.
Proof.
induction s as [|c s IH]; [done|]. simpl.
intros [Hc Hs]%andb_prop. by rewrite Hc, IH.
Qed.

Lemma lower_fixed s : all_chars is_az_or_space s = true -> lower s = s.
Proof.
induction s as [|c s IH]; [done|]. simpl.
intros [Hc Hs]%andb_prop. by rewrite lower_char_fixed, IH.
Qed.

Lemma cleaned_idempotent text : cleaned (cleaned text) = cleaned text.
Proof.
unfold cleaned at 1.
rewrite lower_fixed by apply all_chars_keep.
apply keep_chars_fixed, all_chars_keep.
Qed.

Lemma lower_char_ascii c :
  (Ascii.nat_of_ascii c <? 128) = true ->
  (Ascii.nat_of_ascii (lower_char c) <? 128) = true.
Proof.
destruct c as [[] [] [] [] [] [] [] []]; (reflexivity || discriminate).
Qed.

Lemma is_ascii_lower s : is_ascii s = true -> is_ascii (lower s) = true.
Proof.
unfold is_ascii. induction s as [|c s IH]; [done|]. simpl.
intros [Hc Hs]%andb_prop. by rewrite lower_char_ascii, IH.
Qed.

Lemma all_chars_keep_chars p q s :
  all_chars p s = true -> all_chars p (keep_chars q s) = true.
Proof.
induction s as [|c s IH]; [done|]. simpl.
intros [Hc Hs]%andb_prop. destruct (q c); [|by apply IH].
simpl. by rewrite Hc, IH.
Qed.

Lemma is_ascii_cleaned s : is_ascii s = true -> is_ascii (cleaned s) = true.
Proof.
intros Hs. unfold cleaned. by apply all_chars_keep_chars, is_ascii_lower.
Qed.

End CleaningFacts.

(** X3.  On ASCII text, where [str.lower] maps the capital letters to the
    small ones and the regular expression keeps the small letters and the
    ASCII white space, the tokeniser only ever sees lower-case letters and
    white space, and the normal form of a text does not change when the text
    is lower-cased or cleaned beforehand: digits, punctuation and letter
    case have no influence. *)
Theorem preprocess_text_cleaning {libs : Libraries} (text : string) :
  (forall s, is_ascii s = true -> str_lower s = PyStr.lower s) ->
  (forall s, is_ascii s = true ->
     re_sub_non_letters s = PyStr.keep_chars PyStr.is_az_or_space s) ->
  is_ascii text = true ->
  preprocess_text (Some text)
  = PyStr.join " " (map lemmatize (word_tokenize (cleaned text)))
  /\ all_chars PyStr.is_az_or_space (cleaned text) = true
  /\ preprocess_text (Some (cleaned text)) = preprocess_text (Some text)
  /\ preprocess_text (Some (PyStr.lower text)) = preprocess_text (Some text).
Proof.
intros Hlower Hsub Htext.
assert (Hnormal : forall s, is_ascii s = true ->
          preprocess_text (Some s)
          = PyStr.join " " (map lemmatize (word_tokenize (cleaned s)))).
{ intros s Hs. unfold preprocess_text, cleaned.
  rewrite (Hlower s Hs).
  by rewrite (Hsub _ (CleaningFacts.is_ascii_lower s Hs)). }
split; [by apply Hnormal|].
split; [apply CleaningFacts.all_chars_keep|]. split.
- rewrite (Hnormal _ (CleaningFacts.is_ascii_cleaned text Htext)).
  rewrite (Hnormal text Htext).
  by rewrite CleaningFacts.cleaned_idempotent.
- rewrite (Hnormal _ (CleaningFacts.is_ascii_lower text Htext)).
  rewrite (Hnormal text Htext). unfold cleaned.
  by rewrite CleaningFacts.lower_idempotent.
Qed.

Lemma preprocess_text_cleaning_witness :
  preprocess_text (libs := four_epochs) (Some "I'm SO sad, 100%!")
  = "im so sad"
  /\ preprocess_text (libs := four_epochs) (Some "im so sad") = "im so sad".
Proof.
destruct (preprocess_text_cleaning (libs := four_epochs)
            "I'm SO sad, 100%!")
  as (Hnormal & _ & Hcleaned & _).
- intros s _. reflexivity.
- intros s _. reflexivity.
- reflexivity.
- split; [exact Hnormal|].
  etransitivity; [exact Hcleaned|exact Hnormal].
Defined.

(** ** The augmenter: the word-drop and the swap in detail *)

Section AugmenterMore.

Context {rng : Type} {source : RandomSource rng}.
#[local] Abbreviation world := (@world rng).

Lemma remove_word_length idx (words : list string) :
  idx < length words ->
  length (remove_word idx words) = length words - 1.
Proof.
intros Hidx. unfold remove_word.
rewrite length_app, length_take, length_drop. lia.
Qed.

Lemma remove_word_sublist idx (words : list string) :
  remove_word idx words `sublist_of` words.
Proof.
unfold remove_word. rewrite <- (take_drop idx words) at 3.
apply sublist_app; [done|].
replace (drop (S idx) words) with (drop 1 (drop idx words))
  by (rewrite drop_drop; f_equal; lia).
apply sublist_drop.
Qed.

(** The shape of the answer on a long text, given what is known of the
    swap loop from the generator state it starts in. *)
Lemma augment_text_swapped (Q : list string -> Prop) text (w : world) :
  3 < length (PyStr.split text) ->
  (forall w0 : world,
     gen w0
     = (if 4 <? length (PyStr.split text)
        then (randint 0 (length (PyStr.split text)) (gen w)).2
        else gen w) ->
     returns
       (for_each (seq 0 (length (PyStr.split text) - 1)) swap_body
          (PyStr.split text)) w0 (fun swapped _ => Q swapped)) ->
  returns (augment_text text) w
    (fun variants _ =>
       exists swapped,
         Q swapped /\ last variants = Some (PyStr.join " " swapped)).
Proof.
intros Hlen Hloop. unfold augment_text.
destruct (length (PyStr.split text) <=? 3) eqn:Hle;
  [apply Nat.leb_le in Hle; lia|].
apply returns_bind.
destruct (4 <? length (PyStr.split text)) eqn:H4.
- apply returns_bind.
  unfold returns at 1, np_random_randint.
  destruct (randint 0 (length (PyStr.split text)) (gen w)) as [n g] eqn:Hn.
  eexists _, _. split; [reflexivity|].
  apply returns_ret. apply returns_bind.
  eapply returns_weaken; [|by apply Hloop].
  intros ws' w2 HQ. apply returns_ret. by exists ws'.
- apply returns_ret. apply returns_bind.
  eapply returns_weaken; [|by apply Hloop].
  intros ws' w2 HQ. apply returns_ret. by exists ws'.
Qed.

(** When none of the loop's draws is below 0.3 the loop leaves the list as
    it is. *)
Lemma swap_loop_none idxs (words : list string) (w : world) :
  Forall (fun r => (r <? 0.3)%float = false)
    (draws (length idxs) (gen w)) ->
  returns (for_each idxs swap_body words) w
    (fun swapped _ => swapped = words).
Proof.
revert w. induction idxs as [|i idxs IH]; intros w Hdraw.
- by apply returns_ret.
- cbn [length draws] in Hdraw. apply Forall_cons in Hdraw as [Hr Hrest].
  simpl. apply returns_bind. unfold swap_body at 1. apply returns_bind.
  unfold returns at 1, np_random_random.
  destruct (random (gen w)) as [r g]. simpl in Hr, Hrest.
  eexists _, _. split; [reflexivity|]. rewrite Hr.
  apply returns_ret. by apply IH.
Qed.

(** When every draw of the loop is below 0.3 the element at the first
    visited position travels to the end: each swap hands it to the next
    position. *)
Lemma swap_loop_all (rest : list string) : forall (pre : list string) x
    (w : world),
  Forall (fun r => (r <? 0.3)%float = true)
    (draws (length rest) (gen w)) ->
  returns
    (for_each (seq (length pre) (length rest)) swap_body
       (pre ++ x :: rest)) w
    (fun swapped _ => swapped = pre ++ rest ++ [x]).
Proof.
induction rest as [|y rest IH]; intros pre x w Hdraw.
- by apply returns_ret.
- cbn [length draws] in Hdraw. apply Forall_cons in Hdraw as [Hr Hrest].
  simpl seq. simpl for_each. apply returns_bind.
  unfold swap_body at 1. apply returns_bind.
  unfold returns at 1, np_random_random.
  destruct (random (gen w)) as [r g]. simpl in Hr, Hrest.
  eexists _, _. split; [reflexivity|]. rewrite Hr.
  unfold swap_adjacent.
  rewrite (list_lookup_middle pre (y :: rest) x (length pre)) by done.
  replace (pre ++ x :: y :: rest) with ((pre ++ [x]) ++ y :: rest)
    by (by rewrite <- app_assoc).
  rewrite (list_lookup_middle (pre ++ [x]) rest y (S (length pre)))
    by (rewrite length_app; simpl; lia).
  apply returns_ret.
  replace (<[S (length pre):=x]>
             (<[length pre:=y]> ((pre ++ [x]) ++ y :: rest)))
    with ((pre ++ [y]) ++ x :: rest).
  + replace (S (length pre)) with (length (pre ++ [y]))
      by (rewrite length_app; simpl; lia).
    eapply returns_weaken; [|by apply IH].
    intros swapped _ ->. by rewrite <- !app_assoc.
  + rewrite <- !app_assoc. simpl.
    rewrite (insert_app_r_alt pre _ (length pre)) by lia.
    rewrite Nat.sub_diag. simpl.
    rewrite (insert_app_r_alt pre _ (S (length pre))) by lia.
    replace (S (length pre) - length pre) with 1 by lia. done.
Qed.

(** X4.  The dropped variant of a text of more than four words, split again, is
    the input's word list with one word taken out: one word fewer, the
    others in their order. *)
Theorem drop_variant_words text (w : world) :
  4 < length (PyStr.split text) ->
  exists variants w' dropped,
    augment_text text w = (Ok variants, w')
    /\ variants !! 1 = Some dropped
    /\ length (PyStr.split dropped) = length (PyStr.split text) - 1
    /\ PyStr.split dropped `sublist_of` PyStr.split text.
Proof.
intros Hlen.
destruct (augment_text_long text w ltac:(lia))
  as (variants & w' & Hrun & _ & _ & swapped & _ & Hshape).
destruct (4 <? length (PyStr.split text)) eqn:H4;
  [|apply Nat.ltb_ge in H4; lia].
destruct Hshape as (idx & Hidx & ->).
assert (Hsplit :
  PyStr.split (PyStr.join " " (remove_word idx (PyStr.split text)))
  = remove_word idx (PyStr.split text)).
{ apply PyStrFacts.split_join. apply Forall_forall. intros word Hword.
  apply (proj1 (Forall_forall _ _) (PyStrFacts.split_words text)).
  eapply elem_of_sublist; [exact Hword|apply remove_word_sublist]. }
eexists _, w', _. split; [exact Hrun|]. split; [reflexivity|].
rewrite Hsplit. split; [by apply remove_word_length|].
apply remove_word_sublist.
Qed.

(** X5.  If none of the draws of the swap loop falls below 0.3, the swapped
    variant of a text of more than three words is the input's words joined
    by single blanks: for a normalised text, a second copy of the
    original. *)
Theorem swap_variant_unchanged text (w : world) :
  Forall (fun r => (r <? 0.3)%float = false) (swap_draws text (gen w)) ->
  3 < length (PyStr.split text) ->
  exists variants w',
    augment_text text w = (Ok variants, w')
    /\ last variants = Some (PyStr.join " " (PyStr.split text)).
Proof.
intros Hdraw Hlen.
destruct (augment_text_swapped (fun ws => ws = PyStr.split text) text w Hlen)
  as (variants & w' & Hrun & swapped & -> & Hlast).
- intros w0 Hgen. apply swap_loop_none.
  rewrite length_seq, Hgen. exact Hdraw.
- by exists variants, w'.
Qed.

(** X6.  If every draw of the swap loop falls below 0.3, the swaps chain: the
    first word is handed from position to position and ends last, the other
    words move up by one. *)
Theorem swap_variant_rotation text first others (w : world) :
  Forall (fun r => (r <? 0.3)%float = true) (swap_draws text (gen w)) ->
  PyStr.split text = first :: others ->
  3 <= length others ->
  exists variants w',
    augment_text text w = (Ok variants, w')
    /\ last variants = Some (PyStr.join " " (others ++ [first])).
Proof.
intros Hdraw Hwords Hlen.
destruct (augment_text_swapped (fun ws => ws = others ++ [first]) text w)
  as (variants & w' & Hrun & swapped & -> & Hlast).
- rewrite Hwords. simpl. lia.
- intros w0 Hgen. unfold swap_draws in Hdraw. rewrite <- Hgen in Hdraw.
  clear Hgen. rewrite Hwords in Hdraw |- *.
  replace (length (first :: others) - 1) with (length others) in Hdraw |- *
    by (simpl; lia).
  apply (swap_loop_all others [] first w0 Hdraw).
- by exists variants, w'.
Qed.

End AugmenterMore.

Lemma drop_variant_words_witness :
  exists variants w' dropped,
    @augment_text _ _ "a b c d e" world_1 = (Ok variants, w')
    /\ variants !! 1 = Some dropped
    /\ length (PyStr.split dropped) = 4.
Proof.
destruct (drop_variant_words "a b c d e" world_1)
  as (variants & w' & dropped & Hrun & Hdrop & Hlen & _);
  [vm_compute; lia|].
by exists variants, w', dropped.
Defined.

Lemma swap_variant_unchanged_witness :
  exists variants w',
    augment_text "a b c d" world_high = (Ok variants, w')
    /\ last variants = Some "a b c d".
Proof.
apply (swap_variant_unchanged "a b c d" world_high);
  [repeat constructor|vm_compute; lia].
Defined.

Lemma swap_variant_rotation_witness :
  exists variants w',
    augment_text "a b c d" world_low = (Ok variants, w')
    /\ last variants = Some "b c d a".
Proof.
apply (swap_variant_rotation "a b c d" "a" ["b"; "c"; "d"] world_low);
  [repeat constructor|reflexivity|simpl; lia].
Defined.

(** ** What the loader returns *)

Section LoadMore.

Context {rng : Type} {source : RandomSource rng} {libs : Libraries}.
#[local] Abbreviation world := (@world rng).

Lemma join_nonempty (words : list string) :
  words <> [] -> Forall PyStr.is_word words -> PyStr.join " " words <> "".
Proof.
destruct words as [|word words]; [done|]. intros _ Hall.
apply Forall_cons in Hall as [[Hne _] _].
destruct words as [|word2 words]; [done|].
rewrite PyStrFacts.join_cons. intros Heq.
by apply PyStrFacts.append_eq_nil in Heq as [? _].
Qed.

(** One to three variants, the text itself first, and none of them empty
    when the text is not. *)
Lemma augment_text_variants_ok text (w : world) :
  returns (augment_text text) w
    (fun variants _ =>
       head variants = Some text
       /\ 1 <= length variants <= 3
       /\ (text <> "" -> Forall (fun v => v <> "") variants)).
Proof.
destruct (le_lt_dec (length (PyStr.split text)) 3) as [Hle|Hgt].
- exists [text], w. split; [by apply augment_text_few_words|].
  split; [done|]. split; [simpl; lia|]. by repeat constructor.
- eapply returns_weaken; [|by apply augment_text_long].
  intros variants w' (_ & _ & swapped & Hperm & Hshape).
  assert (Hswap : PyStr.join " " swapped <> "").
  { apply join_nonempty.
    - intros ->. apply Permutation_length in Hperm. simpl in Hperm. lia.
    - eapply Permutation_Forall; [symmetry; exact Hperm|].
      apply PyStrFacts.split_words. }
  destruct (4 <? length (PyStr.split text)) eqn:H4.
  + destruct Hshape as (idx & Hidx & ->).
    split; [done|]. split; [simpl; lia|]. intros Hne.
    repeat constructor; [done| |done].
    apply join_nonempty.
    * intros Hnil. apply (f_equal length) in Hnil.
      rewrite remove_word_length in Hnil by done.
      apply Nat.ltb_lt in H4. simpl in Hnil. lia.
    * apply Forall_forall. intros word Hword.
      apply (proj1 (Forall_forall _ _) (PyStrFacts.split_words text)).
      eapply elem_of_sublist; [exact Hword|apply remove_word_sublist].
  + subst variants. split; [done|]. split; [simpl; lia|].
    intros Hne. by repeat constructor.
Qed.

Lemma prepared_rows_nonempty df (row' : gmap string string) text :
  row' ∈ prepared_rows df -> row' !! "text" = Some text -> text <> "".
Proof.
unfold prepared_rows. simpl. intros Hin Htext.
apply elem_of_bool_filter in Hin as [_ Hne].
unfold nonempty_text in Hne. rewrite Htext in Hne.
intros ->. discriminate Hne.
Qed.

Lemma augment_row_keeps df visited (row' : gmap string string) acc
    (w : world) :
  row' ∈ prepared_rows df ->
  augmented_ok df visited acc ->
  returns (augment_row row' acc) w
    (fun acc' _ => augmented_ok df (visited ++ [row']) acc').
Proof.
intros Hin (Hlen & Hsize & Hne & Hlabels & Hkept).
destruct (prepared_rows_origin df row' Hin)
  as (row & raw & emotion & Hrow & Hraw & Hemotion & Heq).
assert (Htext : row' !! "text" = Some (preprocess_text (Some raw)))
  by (subst row'; apply lookup_insert_eq).
assert (Hlabel : row' !! "emotion" = Some emotion)
  by (subst row'; by rewrite lookup_insert_ne).
unfold augment_row. rewrite Htext, Hlabel. apply returns_bind.
eapply returns_weaken; [|apply augment_text_variants_ok].
intros variants w' (Hhead & Hcount & Hvne). apply returns_ret.
unfold augmented_ok. simpl.
rewrite !length_app, length_replicate.
split; [lia|]. split; [simpl; lia|]. split.
- apply Forall_app. split; [done|]. apply Hvne.
  by eapply prepared_rows_nonempty.
- split.
  + apply Forall_app. split; [done|].
    apply Forall_replicate. by exists row, raw.
  + apply Forall_app. split.
    * eapply Forall_impl; [exact Hkept|].
      intros r (t & Ht & Hin'). exists t. split; [done|].
      apply elem_of_app. by left.
    * repeat constructor. exists (preprocess_text (Some raw)).
      split; [done|]. apply elem_of_app. right.
      destruct variants as [|v vs]; [discriminate|].
      injection Hhead as ->. by left.
Qed.

Lemma load_keeps file_path df (w : world) :
  csv w file_path = Some df ->
  "text" ∈ columns df /\ "emotion" ∈ columns df ->
  text_dtype_is_object df = true ->
  returns (load_and_preprocess_data file_path) w
    (fun acc w' =>
       augmented_ok df (prepared_rows df) acc
       /\ csv w' = csv w /\ trace w' = trace w).
Proof.
intros Hcsv Hcols Hdtype. unfold returns.
rewrite (load_run file_path df w Hcsv Hcols Hdtype).
apply (for_each_returns
         (fun visited acc w' =>
            augmented_ok df visited acc
            /\ csv w' = csv w /\ trace w' = trace w)
         augment_row (prepared_rows df) []).
- split; [|done]. unfold augmented_ok. simpl.
  split; [done|]. split; [lia|]. repeat split; constructor.
- intros seen row acc w0 Hrow (Hok & Hc & Ht).
  pose proof (prepared_rows_complete df row Hrow) as [Htext Hemotion].
  destruct (augment_row_keeps df seen row acc w0 Hrow Hok)
    as (acc' & w1 & Hrun & Hok').
  destruct (augment_row_returns row acc w0 Htext Hemotion)
    as (acc'' & w2 & Hrun' & Hc' & Ht').
  rewrite Hrun in Hrun'. injection Hrun' as <- <-.
  exists acc', w1. split; [done|]. split; [done|]. split; congruence.
Qed.

(** X7.  On a data set with both columns whose text column holds strings, the
    loader returns, and the two arrays it returns have the same length,
    between one and three entries for each row that survives the cleaning;
    the world is as before but for the generator. *)
Theorem load_sizes file_path df (w : world) :
  csv w file_path = Some df ->
  "text" ∈ columns df /\ "emotion" ∈ columns df ->
  text_dtype_is_object df = true ->
  exists texts labels w',
    load_and_preprocess_data file_path w = (Ok (texts, labels), w')
    /\ length texts = length labels
    /\ length (prepared_rows df) <= length texts
    /\ length texts <= 3 * length (prepared_rows df)
    /\ csv w' = csv w /\ trace w' = trace w.
Proof.
intros Hcsv Hcols Hdtype.
destruct (load_keeps file_path df w Hcsv Hcols Hdtype)
  as ([texts labels] & w' & Hrun & (Hlen & Hsize & _) & Hc & Ht).
exists texts, labels, w'. simpl in *. repeat split; [done|done|lia|lia|done..].
Qed.

(** X8.  On a data set with both columns whose text column holds strings, the
    loader invents nothing and loses nothing: every label it returns is the
    emotion of a row of the data set that has a text, no text it returns is
    empty, and the normalised text of every surviving row is among the
    texts. *)
Theorem load_contents file_path df (w : world) :
  csv w file_path = Some df ->
  "text" ∈ columns df /\ "emotion" ∈ columns df ->
  text_dtype_is_object df = true ->
  exists texts labels w',
    load_and_preprocess_data file_path w = (Ok (texts, labels), w')
    /\ Forall (fun label =>
                 exists row text,
                   row ∈ rows df /\ row !! "text" = Some text
                   /\ row !! "emotion" = Some label) labels
    /\ Forall (fun text => text <> "") texts
    /\ Forall (fun row' =>
                 exists text, row' !! "text" = Some text /\ text ∈ texts)
         (prepared_rows df).
Proof.
intros Hcsv Hcols Hdtype.
destruct (load_keeps file_path df w Hcsv Hcols Hdtype)
  as ([texts labels] & w' & Hrun & (_ & _ & Hne & Hlabels & Hkept) & _).
by exists texts, labels, w'.
Qed.

End LoadMore.

Lemma load_sizes_witness :
  exists texts labels w',
    load_and_preprocess_data (libs := four_epochs) "emotions.csv" world_3
    = (Ok (texts, labels), w')
    /\ length texts = length labels.
Proof.
destruct (load_sizes (libs := four_epochs) "emotions.csv" two_rows world_3
            eq_refl)
  as (texts & labels & w' & Hrun & Hlen & _).
- split; apply (bool_decide_unpack _); vm_compute; exact I.
- reflexivity.
- by exists texts, labels, w'.
Defined.

Lemma load_contents_witness :
  exists texts labels w',
    load_and_preprocess_data (libs := four_epochs) "emotions.csv" world_3
    = (Ok (texts, labels), w')
    /\ Forall (fun text => text <> "") texts.
Proof.
destruct (load_contents (libs := four_epochs) "emotions.csv" two_rows
            world_3 eq_refl)
  as (texts & labels & w' & Hrun & _ & Hne & _).
- split; apply (bool_decide_unpack _); vm_compute; exact I.
- reflexivity.
- by exists texts, labels, w'.
Defined.

(** ** The training loop and the whole run *)

Section RunMore.

Context {rng : Type} {source : RandomSource rng} {libs : Libraries}.
Context {downloader : NltkBootstrap.Downloader}.
#[local] Abbreviation world := (@world rng).

Lemma saved_models_app tr1 tr2 :
  saved_models (tr1 ++ tr2) = saved_models tr1 ++ saved_models tr2.
Proof. apply omap_app. Qed.

Lemma saved_tokenizers_app tr1 tr2 :
  saved_tokenizers (tr1 ++ tr2) = saved_tokenizers tr1 ++ saved_tokenizers tr2.
Proof. apply omap_app. Qed.

Lemma batches_save_nothing n :
  saved_models (concat (replicate n [OptimizerStep; SchedulerStep])) = []
  /\ saved_tokenizers (concat (replicate n [OptimizerStep; SchedulerStep]))
     = []
  /\ Forall is_loop_event
       (concat (replicate n [OptimizerStep; SchedulerStep])).
Proof.
induction n as [|n (IHm & IHt & IHl)]; [by repeat split|].
rewrite concat_replicate_S, saved_models_app, saved_tokenizers_app.
rewrite IHm, IHt. repeat split. apply Forall_app. split; [|done].
by repeat constructor.
Qed.

Lemma improving_snoc best saved epoch :
  improving best saved ->
  (last_accuracy best saved <? val_accuracy epoch)%float = true ->
  improving best (saved ++ [epoch]).
Proof.
revert best. induction saved as [|e saved IH]; intros best.
- intros _ Hlast. split; [exact Hlast|done].
- intros [Hb Hrest] Hlast. split; [done|]. apply IH; [done|].
  unfold last_accuracy in *. rewrite last_cons in Hlast.
  by destruct (last saved).
Qed.

Lemma last_accuracy_snoc best saved epoch :
  last_accuracy best (saved ++ [epoch]) = val_accuracy epoch.
Proof. unfold last_accuracy. by rewrite last_snoc. Qed.

(** What the loop keeps true of its events and of [best_accuracy]. *)
Lemma training_loop_keeps n epochs (w : world) :
  1 <= n ->
  returns (training_loop n epochs) w
    (fun best w' =>
       gen w' = gen w /\ csv w' = csv w
       /\ exists evs,
            trace w' = trace w ++ evs
            /\ Forall is_loop_event evs
            /\ saved_tokenizers evs = saved_models evs
            /\ saved_models evs `sublist_of` epochs
            /\ improving 0 (saved_models evs)
            /\ best = last_accuracy 0 (saved_models evs)).
Proof.
intros Hn. unfold training_loop.
apply (for_each_returns
         (fun visited best w' =>
            gen w' = gen w /\ csv w' = csv w
            /\ exists evs,
                 trace w' = trace w ++ evs
                 /\ Forall is_loop_event evs
                 /\ saved_tokenizers evs = saved_models evs
                 /\ saved_models evs `sublist_of` visited
                 /\ improving 0 (saved_models evs)
                 /\ best = last_accuracy 0 (saved_models evs))
         (epoch_body n) epochs []).
- split; [done|]. split; [done|]. exists []. rewrite app_nil_r.
  by repeat split.
- intros seen epoch best w0 _
    (Hg & Hc & evs & Ht & Hloop & Htok & Hsub & Himp & Hbest).
  unfold epoch_body, returns.
  rewrite (run_bind_ok _ _ _ _ _ (train_epoch_run n w0 Hn)).
  rewrite save_if_best_run.
  destruct (batches_save_nothing n) as (Hbm & Hbt & Hbl).
  destruct (best <? val_accuracy epoch)%float eqn:Hlt;
    eexists _, _; (split; [reflexivity|]); cbn [gen csv trace];
    (split; [done|]); (split; [done|]).
  + exists (evs ++ concat (replicate n [OptimizerStep; SchedulerStep])
              ++ [SaveModel (output_path "best_model") epoch;
                  SaveTokenizer (output_path "best_model") epoch]).
    rewrite Ht, <- !app_assoc. split; [done|].
    rewrite !saved_models_app, !saved_tokenizers_app, Hbm, Hbt, Htok.
    simpl. split.
    { apply Forall_app. split; [done|]. apply Forall_app. split; [done|].
      by repeat constructor. }
    split; [done|]. split; [by apply sublist_app|].
    split; [|by rewrite last_accuracy_snoc].
    apply improving_snoc; [done|]. by rewrite <- Hbest.
  + exists (evs ++ concat (replicate n [OptimizerStep; SchedulerStep])).
    rewrite Ht, <- !app_assoc. split; [done|].
    rewrite !saved_models_app, !saved_tokenizers_app, Hbm, Hbt, Htok.
    rewrite !app_nil_r. split; [by apply Forall_app|].
    split; [done|]. split; [by apply sublist_inserts_r|]. done.
Qed.

(** X9.  Over a whole loop the tokenizer is saved exactly when the model is; the
    epochs at which they are saved are visited epochs, in order; each has a
    validation accuracy strictly above that of the save before it, the
    first one strictly above 0; and the value returned as best accuracy is
    the accuracy of the last save, or 0 when nothing was saved. *)
Theorem checkpoints_improve n epochs (w : world) :
  1 <= n ->
  exists best w' evs,
    training_loop n epochs w = (Ok best, w')
    /\ trace w' = trace w ++ evs
    /\ saved_tokenizers evs = saved_models evs
    /\ saved_models evs `sublist_of` epochs
    /\ improving 0 (saved_models evs)
    /\ best = last_accuracy 0 (saved_models evs).
Proof.
intros Hn.
destruct (training_loop_keeps n epochs w Hn)
  as (best & w' & Hrun & _ & _ & evs & Ht & _ & Htok & Hsub & Himp & Hb).
by exists best, w', evs.
Qed.

(** X10.  An epoch over an empty loader: no step is taken and the averages divide
    by zero; over a loader with a batch the epoch never raises. *)
Theorem train_epoch_outcome n (w : world) :
  (n = 0 -> train_epoch n w = (Raise ZeroDivisionError, w))
  /\ (1 <= n -> exists w', train_epoch n w = (Ok tt, w')).
Proof.
split.
- intros ->. unfold train_epoch.
  rewrite (run_bind_ok _ _ _ _ _ (train_batches_run 0 0 w)).
  simpl. rewrite app_nil_r. by destruct w.
- intros Hn. eexists. by apply train_epoch_run.
Qed.


(** The script is the bootstrap followed by the [__main__] block. *)
Lemma run_script_main argv nltk (w w' : world) status :
  main argv w = (status, w') ->
  run_script argv {| nltk_data := nltk; state := w |}
  = (status, {| nltk_data := NltkBootstrap.download_nltk_data nltk;
                state := w' |}).
Proof.
intros Hmain. unfold run_script. cbn [state nltk_data]. by rewrite Hmain.
Qed.



(** X13.  The ways the script gives up after its NLTK bootstrap.  Called
    without exactly one argument it exits with status 1 and touches nothing
    else; given a file that cannot be read it exits with status 1 having
    only created the output directory; and when the pretrained network is
    not found, or the loaded data cannot be split, it exits with status 1
    having written the label classes but no checkpoint and no
    configuration, and without a training step. *)
Theorem main_gives_up program file_path (argv : list string)
    (nltk : NltkData.state) (w : world) :
  (length argv <> 2 ->
     run_script argv {| nltk_data := nltk; state := w |}
     = (1, {| nltk_data := NltkBootstrap.download_nltk_data nltk;
              state := w |}))
  /\ (csv w file_path = None ->
      run_script [program; file_path] {| nltk_data := nltk; state := w |}
      = (1, {| nltk_data := NltkBootstrap.download_nltk_data nltk;
               state :=
                 {| gen := gen w; csv := csv w;
                    trace := trace w ++ [MakeDirs OUTPUT_DIR] |} |}))
  /\ (forall texts labels w0,
        load_and_preprocess_data file_path
          {| gen := gen w; csv := csv w;
             trace := trace w ++ [MakeDirs OUTPUT_DIR] |}
        = (Ok (texts, labels), w0) ->
        from_pretrained MODEL_NAME = false
        \/ train_loader_len texts (LabelEncoder.fit_transform labels).2
           = None ->
        run_script [program; file_path] {| nltk_data := nltk; state := w |}
        = (1, {| nltk_data := NltkBootstrap.download_nltk_data nltk;
                 state :=
                   {| gen := gen w0; csv := csv w0;
                      trace :=
                        trace w0
                        ++ [SaveLabelClasses
                              (output_path "label_encoder_classes.npy")
                              (LabelEncoder.fit_transform labels).1] |} |})).
Proof.
split; [|split].
- intros Hargc. apply run_script_main. unfold main.
  destruct (length argv =? 2) eqn:Heq; [|done].
  by apply Nat.eqb_eq in Heq.
- intros Hcsv. apply run_script_main.
  unfold main. simpl. unfold train_sentiment_model.
  rewrite (run_bind_ok _ _ _ _ _ (emit_run (MakeDirs OUTPUT_DIR) w)).
  set (w1 := {| gen := gen w; csv := csv w;
                trace := trace w ++ [MakeDirs OUTPUT_DIR] |}).
  assert (Hload : load_and_preprocess_data file_path w1
                  = (Raise (ReadError file_path), w1)).
  { unfold load_and_preprocess_data.
    apply run_bind_raise. unfold pd_read_csv. simpl. by rewrite Hcsv. }
  by rewrite (run_bind_raise _ _ _ _ _ Hload).
- intros texts labels w0 Hload Hfail. apply run_script_main.
  unfold main. simpl. unfold train_sentiment_model.
  rewrite (run_bind_ok _ _ _ _ _ (emit_run (MakeDirs OUTPUT_DIR) w)).
  rewrite (run_bind_ok _ _ _ _ _ Hload). simpl. simpl in Hfail.
  rewrite (run_bind_ok _ _ _ _ _ (emit_run _ w0)).
  destruct (from_pretrained MODEL_NAME) eqn:Hfound.
  + destruct Hfail as [Hfail|Hfail]; [discriminate|].
    match goal with
    | |- context [(ret tt ≫= _) ?w3] =>
        rewrite (run_bind_ok _ _ _ _ _ (eq_refl : ret tt w3 = (Ok tt, w3)))
    end.
    by rewrite Hfail.
  + done.
Qed.

End RunMore.

Lemma checkpoints_improve_witness :
  exists best w' evs,
    training_loop (libs := four_epochs) 1 (seq 0 4) world_1 = (Ok best, w')
    /\ trace w' = trace world_1 ++ evs
    /\ improving (libs := four_epochs) 0 (saved_models evs).
Proof.
destruct (checkpoints_improve (libs := four_epochs) 1 (seq 0 4) world_1)
  as (best & w' & evs & Hrun & Ht & _ & _ & Himp & _); [lia|].
exists best, w', evs. split; [exact Hrun|]. split; [exact Ht|exact Himp].
Defined.


Lemma main_gives_up_witness :
  exists w',
    run_script (libs := offline) (downloader := table_downloader)
      ["train_model.py"; "ten.csv"] process_4
    = (1, {| nltk_data :=
               NltkBootstrap.download_nltk_data (H := table_downloader)
                 no_data;
             state := w' |})
    /\ List.filter is_training (trace w') = []
    /\ saved_models (trace w') = [].
Proof.
destruct (main_gives_up (libs := offline) (downloader := table_downloader)
            "train_model.py" "ten.csv" [] no_data world_4)
  as (_ & _ & Hfail).
destruct (load_returns (libs := offline) "ten.csv" ten_rows
            {| gen := gen world_4; csv := csv world_4;
               trace := trace world_4 ++ [MakeDirs OUTPUT_DIR] |} eq_refl)
  as ([texts labels] & w0 & Hload & _ & Ht).
- split; apply (bool_decide_unpack _); vm_compute; exact I.
- reflexivity.
- eexists. split; [exact (Hfail texts labels w0 Hload (or_introl eq_refl))|].
  cbn [trace]. rewrite Ht. split; reflexivity.
Defined.


(** ** The freezing policy on any network *)

Module PolicyFacts.
Import Bert.

Lemma freeze_idempotent ps : freeze (freeze ps) = freeze ps.
Proof. induction ps as [|p ps IH]; [done|]. simpl. by rewrite IH. Qed.

Lemma prefixed_freeze_names pre ps :
  map name (prefixed pre (freeze ps)) = map name (prefixed pre ps).
Proof. induction ps as [|p ps IH]; [done|]. simpl. by rewrite IH. Qed.

Lemma imap_twice {A B C} (f : nat -> B -> C) (g : nat -> A -> B) l :
  imap f (imap g l) = imap (fun i x => f i (g i x)) l.
Proof.
apply list_eq. intros i. rewrite !list_lookup_imap.
by destruct (l !! i).
Qed.

Lemma concat_imap_names {A} (f g : nat -> A -> list Param) (l : list A) :
  (forall i x, map name (f i x) = map name (g i x)) ->
  map name (concat (imap f l)) = map name (concat (imap g l)).
Proof.
revert f g. induction l as [|x l IH]; intros f g Hfg; [done|].
rewrite !imap_cons. simpl. rewrite !map_app, Hfg.
f_equal. apply IH. intros i y. apply Hfg.
Qed.

Lemma elem_of_prefixed pre ps p :
  p ∈ prefixed pre ps
  <-> exists q, q ∈ ps /\ p = {| name := pre +:+ name q;
                                requires_grad := requires_grad q |}.
Proof.
unfold prefixed. rewrite list_elem_of_fmap. split.
- intros (q & -> & Hq). by exists q.
- intros (q & Hq & ->). by exists q.
Qed.

Lemma prefixed_freeze_frozen pre ps p :
  p ∈ prefixed pre (freeze ps) -> frozen p.
Proof.
intros (q & Hq & ->)%elem_of_prefixed.
unfold freeze in Hq. apply list_elem_of_fmap in Hq as (q0 & -> & _). done.
Qed.

Lemma elem_of_named_layers (layers : list (list Param)) p :
  p ∈ concat (imap (fun i layer => prefixed (layer_prefix i) layer) layers)
  <-> exists i layer,
        layers !! i = Some layer /\ p ∈ prefixed (layer_prefix i) layer.
Proof.
rewrite list_elem_of_In, in_concat. split.
- intros (named & Hnamed & Hp).
  apply list_elem_of_In, elem_of_lookup_imap in Hnamed
    as (i & layer & -> & Hi).
  exists i, layer. split; [done|]. by apply list_elem_of_In.
- intros (i & layer & Hi & Hp).
  exists (prefixed (layer_prefix i) layer). split.
  + apply list_elem_of_In.
    by apply (elem_of_lookup_imap_2
                (fun i layer => prefixed (layer_prefix i) layer)
                layers layer i).
  + by apply list_elem_of_In.
Qed.

End PolicyFacts.

(** X14.  Whatever the network: the freezing policy keeps every tensor and its
    name, in the order of [named_parameters]; applying it twice is applying
    it once; it leaves the pooler and the head untouched; and it never
    makes a tensor trainable: a tensor that is trainable afterwards was a
    trainable tensor of the network before. *)
Theorem apply_freezing_general (model : Bert.Model) :
  map Bert.name (Bert.named_parameters (Bert.apply_freezing model))
  = map Bert.name (Bert.named_parameters model)
  /\ Bert.apply_freezing (Bert.apply_freezing model)
     = Bert.apply_freezing model
  /\ Bert.pooler (Bert.apply_freezing model) = Bert.pooler model
  /\ Bert.classifier (Bert.apply_freezing model) = Bert.classifier model
  /\ (forall p,
        p ∈ Bert.named_parameters (Bert.apply_freezing model) ->
        Bert.trainable p -> p ∈ Bert.named_parameters model).
Proof.
split; [|split; [|split; [done|split; [done|]]]].
- unfold Bert.named_parameters, Bert.apply_freezing. simpl.
  rewrite !map_app, PolicyFacts.prefixed_freeze_names.
  rewrite PolicyFacts.imap_twice. do 2 f_equal.
  apply PolicyFacts.concat_imap_names. intros i layer.
  destruct (i <? 10); [apply PolicyFacts.prefixed_freeze_names|done].
- unfold Bert.apply_freezing. simpl.
  rewrite PolicyFacts.freeze_idempotent, PolicyFacts.imap_twice. f_equal.
  apply imap_ext. intros i layer _.
  destruct (i <? 10); [apply PolicyFacts.freeze_idempotent|done].
- intros p Hp Htrain. unfold Bert.named_parameters in *.
  unfold Bert.apply_freezing in Hp. simpl in Hp.
  rewrite !elem_of_app in Hp. rewrite !elem_of_app.
  destruct Hp as [Hp|[Hp|Hp]].
  + apply PolicyFacts.prefixed_freeze_frozen in Hp.
    unfold Bert.frozen, Bert.trainable in *. congruence.
  + right. left.
    apply PolicyFacts.elem_of_named_layers in Hp as (i & layer & Hi & Hp).
    rewrite list_lookup_imap in Hi.
    destruct (Bert.encoder_layer model !! i) as [old|] eqn:Hold;
      [|discriminate].
    simpl in Hi. injection Hi as <-.
    apply PolicyFacts.elem_of_named_layers. exists i, old. split; [done|].
    destruct (i <? 10); [|done].
    apply PolicyFacts.prefixed_freeze_frozen in Hp.
    unfold Bert.frozen, Bert.trainable in *. congruence.
  + by do 2 right.
Qed.

(** ** Fetching the NLTK data *)

Module NltkFacts.
Import NltkData NltkBootstrap.

Section Bootstrap.

Context `{Downloader}.

Lemma ensure_all_present pkgs st :
  (forall pkg_id path, (pkg_id, path) ∈ pkgs -> find path st = true) ->
  foldl ensure st pkgs = st.
Proof.
induction pkgs as [|[pkg_id path] pkgs IH]; intros Hall; [done|].
simpl. rewrite (Hall pkg_id path) by left.
apply IH. intros p q Hin. apply (Hall p q). by right.
Qed.

(** The loop over any table of packages, for a downloader that only adds
    resources and provides what the table pairs with a package. *)
Lemma ensure_all_spec pkgs : forall st,
  (forall pkg_id data, data ⊆ install pkg_id data) ->
  (forall pkg_id path data, (pkg_id, path) ∈ pkgs ->
     path ∈ install pkg_id data) ->
  resources st ⊆ resources (foldl ensure st pkgs)
  /\ (forall pkg_id path, (pkg_id, path) ∈ pkgs ->
        find path (foldl ensure st pkgs) = true)
  /\ exists new,
       requested (foldl ensure st pkgs) = requested st ++ new
       /\ Forall (fun pkg_id =>
                    exists path, (pkg_id, path) ∈ pkgs
                                 /\ find path st = false) new.
Proof.
induction pkgs as [|[pkg_id path] pkgs IH]; intros st Hadd Hprovides.
- split; [done|]. split; [by intros ? ? ?%elem_of_nil|].
  exists []. by rewrite app_nil_r.
- simpl. destruct (find path st) eqn:Hf.
  + assert (Hfound : path ∈ resources st)
      by (unfold find in Hf; by apply bool_decide_eq_true in Hf).
    destruct (IH st Hadd) as (Hsub & Hall & new & Hreq & Hnew).
    { intros p q d Hin. apply Hprovides. by right. }
    split; [done|]. split.
    * intros p q [[= -> ->]|Hin]%elem_of_cons; [|by apply (Hall p q)].
      unfold find. apply bool_decide_eq_true. by apply Hsub.
    * exists new. split; [done|].
      eapply Forall_impl; [exact Hnew|].
      intros p (q & Hin & Hq). exists q. split; [by right|done].
  + pose proof (Hadd pkg_id (resources st)) as Hgrow.
    destruct (IH (download pkg_id st) Hadd)
      as (Hsub & Hall & new & Hreq & Hnew).
    { intros p q d Hin. apply Hprovides. by right. }
    simpl in Hsub, Hreq. split; [by etrans|]. split.
    * intros p q [[= -> ->]|Hin]%elem_of_cons; [|by apply (Hall p q)].
      unfold find. apply bool_decide_eq_true. apply Hsub.
      apply Hprovides. by left.
    * exists (pkg_id :: new). rewrite Hreq, <- app_assoc. split; [done|].
      constructor.
      -- exists path. split; [by left|done].
      -- eapply Forall_impl; [exact Hnew|].
         intros p (q & Hin & Hq). exists q. split; [by right|].
         unfold find in *. apply bool_decide_eq_false.
         apply bool_decide_eq_false in Hq. simpl in Hq.
         intros Hhere. apply Hq. by apply Hgrow.
Qed.

End Bootstrap.

End NltkFacts.

(** X15.  The training script's bootstrap, for a downloader that only adds
    resources and that installs the resource paired with each package:
    afterwards every required resource is found; nothing that was there is
    lost; a package is requested only if its resource was missing at the
    start; and a second run requests nothing. *)
Theorem bootstrap_ensures `{NltkBootstrap.Downloader} (st : NltkData.state) :
  (forall pkg_id data, data ⊆ NltkBootstrap.install pkg_id data) ->
  (forall pkg_id path data,
     (pkg_id, path) ∈ NltkBootstrap.required_packages ->
     path ∈ NltkBootstrap.install pkg_id data) ->
  let st' := NltkBootstrap.download_nltk_data st in
  NltkData.resources st ⊆ NltkData.resources st'
  /\ (forall pkg_id path,
        (pkg_id, path) ∈ NltkBootstrap.required_packages ->
        NltkData.find path st' = true)
  /\ (exists new,
        NltkData.requested st' = NltkData.requested st ++ new
        /\ Forall (fun pkg_id =>
                     exists path,
                       (pkg_id, path) ∈ NltkBootstrap.required_packages
                       /\ NltkData.find path st = false) new)
  /\ NltkBootstrap.download_nltk_data st' = st'.
Proof.
intros Hadd Hprovides st'.
destruct (NltkFacts.ensure_all_spec NltkBootstrap.required_packages st)
  as (Hsub & Hall & Hnew); [done|done|].
split; [done|]. split; [done|]. split; [done|].
by apply NltkFacts.ensure_all_present.
Qed.

Lemma bootstrap_ensures_witness :
  NltkData.requested
    (NltkBootstrap.download_nltk_data (H := table_downloader) no_data)
  = ["punkt"; "wordnet"; "omw-1.4"; "punkt_tab"]
  /\ NltkData.find "tokenizers/punkt_tab"
       (NltkBootstrap.download_nltk_data (H := table_downloader) no_data)
     = true.
Proof.
destruct (bootstrap_ensures (H := table_downloader) no_data)
  as (_ & Hall & _ & _).
- intros pkg_id data. unfold NltkBootstrap.install, table_downloader.
  apply union_subseteq_l.
- intros pkg_id path data Hin.
  unfold NltkBootstrap.install, table_downloader.
  apply elem_of_union_r, elem_of_list_to_set, list_elem_of_omap.
  exists (pkg_id, path). split; [done|]. simpl.
  by destruct (decide (pkg_id = pkg_id)).
- split; [reflexivity|]. apply (Hall "punkt_tab"). set_solver.
Defined.

(** X16.  The one-off downloader requests its four packages in order whatever
    happens: a download that raises stops nothing, and the data directory
    is then left as it was; [punkt_tab], which the training script looks
    up, is not among the requests. *)
Theorem downloader_requests_all `{NltkDownloader.Fetcher}
    (st : NltkData.state) :
  NltkData.requested (NltkDownloader.download_nltk_data st)
  = NltkData.requested st
    ++ ["punkt"; "wordnet"; "averaged_perceptron_tagger"; "omw-1.4"]
  /\ ((forall package data, NltkDownloader.fetch package data = None) ->
      NltkData.resources (NltkDownloader.download_nltk_data st)
      = NltkData.resources st)
  /\ "punkt_tab" ∉ NltkDownloader.required_packages.
Proof.
split; [|split].
- unfold NltkDownloader.download_nltk_data, NltkDownloader.required_packages.
  simpl. unfold NltkDownloader.attempt.
  repeat (destruct (NltkDownloader.fetch _ _); simpl);
    by rewrite <- !app_assoc.
- intros Hfail.
  unfold NltkDownloader.download_nltk_data, NltkDownloader.required_packages.
  simpl. unfold NltkDownloader.attempt. by rewrite !Hfail.
- apply (bool_decide_unpack _). vm_compute. exact I.
Qed.
